(** * sensu-go: authentication providers and RBAC rule matching

    A shallow embedding of

    - [backend/authentication/providers/ldap/ldap.go]  (module [ldap]),
    - [backend/authentication/providers/allowall/allowall.go]
      (module [allowall]),
    - the rule predicates exercised by the [api/core/v2] rule tests
      (module [rbac]),

    together with the properties of the specification that concern them.

    Go values are modelled as follows.  A Go [string] is a [string]; a slice
    [[]string] is a [list string] (the nil slice and the empty slice are both
    [[]]); a pointer that may be nil is an [option]; an [error] interface
    value that may be nil is an [option error]; a pair of results
    [(T, error)] is a pair.  A run-time panic is an explicit [Panics]
    outcome.  The calls into the go-ldap client are events answered by a
    directory; the list of events issued so far is the only state.
    [logger.Debugf] calls have no influence on any result and are left out,
    and so is the unused [context.Context] argument. *)

From Stdlib Require Import String List Bool Arith ZArith Lia.
Import ListNotations.
Open Scope list_scope.

(** ** Go runtime: errors and panics *)

(** A non-nil [error] value.  [errors_New] is [errors.New]; [ldap_Error]
    is go-ldap's [*ldap.Error], carrying the LDAP result code. *)
Inductive error : Type :=
| errors_New (text : string)
| ldap_Error (resultCode : nat) (text : string).

(** The outcome of a Go call: it returns, or it panics. *)
Inductive outcome (A : Type) : Type :=
| Returns (a : A)
| Panics (reason : string).
Arguments Returns {A} a.
Arguments Panics {A} reason.

Definition nil_dereference : string :=
  "runtime error: invalid memory address or nil pointer dereference".

(** ** api/core/v2: the types the providers use *)

Module corev2.

(** [corev2.ObjectMeta], reduced to the two fields the providers touch. *)
Record ObjectMeta : Type := {
  Name : string;
  Namespace : string
}.

(** [corev2.User] as built by the providers' claims builders. *)
Record User : Type := {
  Username : string;
  Groups : list string;
  Disabled : bool
}.

(** [corev2.AuthProviderClaims]. *)
Record AuthProviderClaims : Type := {
  ProviderID : string;
  UserID : string
}.

(** Modelled from the spec: the declaration of [corev2.Claims] is not among
    the sources.  The specification lists its content as username, group
    set, provider identifier, provider-scoped user identifier, and the
    issued-at and expiry fields of the token layer. *)
Record Claims : Type := {
  Subject : string;
  ClaimGroups : list string;
  Provider : AuthProviderClaims;
  IssuedAt : Z;
  ExpiresAt : Z
}.

(** The assignment [claims.Provider = v] on a claims value. *)
Definition set_Provider (c : Claims) (v : AuthProviderClaims) : Claims :=
  {| Subject := Subject c;
     ClaimGroups := ClaimGroups c;
     Provider := v;
     IssuedAt := IssuedAt c;
     ExpiresAt := ExpiresAt c |}.

End corev2.

(** ** backend/authentication/jwt *)

Module jwt.

(** The signature of [jwt.NewClaims]: from a user to a claims pointer that
    may be nil and an error that may be nil.  The function itself is not
    among the sources; the providers are parameterised by it.  A run calls
    it at most once, so what it draws from the clock or from the entropy
    source is covered by ranging over all such functions.  One function
    stands for one call: two successive runs, a login and a later refresh,
    are given one function each, since the second call reads another time
    and draws another token identifier. *)
Definition NewClaimsFn : Type :=
  corev2.User -> option corev2.Claims * option error.

(** Modelled from the spec: what the specification says of the claims a
    successful [jwt.NewClaims] mints, namely that they carry the username
    and the group set of the identity they were minted for. *)
Definition carries_identity (NewClaims : NewClaimsFn) : Prop :=
  forall user c,
    NewClaims user = (Some c, None) ->
    corev2.Subject c = corev2.Username user /\
    corev2.ClaimGroups c = corev2.Groups user.

(** Modelled from the spec: [jwt.NewClaims] is not among the sources.  The
    specification has the claims builder fail only if the signing of the
    claims fails, and has the claims carry the username and the group set
    of the identity.  An issuer [issues] when its signing does not fail:
    for every user it returns a nil error and non-nil claims that carry
    the name and the groups of the user. *)
Definition issues (NewClaims : NewClaimsFn) : Prop :=
  forall user,
    exists c,
      NewClaims user = (Some c, None) /\
      corev2.Subject c = corev2.Username user /\
      corev2.ClaimGroups c = corev2.Groups user.

End jwt.

(** ** api/core/v2: rule matching *)

Module rbac.

(** A [Rule], as the rule tests build it. *)
Record Rule : Type := {
  Verbs : list string;
  Resources : list string;
  ResourceNames : list string
}.

Section Matcher.

(** The all-resources wildcard token [ResourceAll]; its value is declared
    outside the sources, so the matcher is parameterised by it. *)
Variable ResourceAll : string.

(** Modelled from the spec: [Rule.ResourceMatches] is declared in the
    [api/core/v2] rule file, of which only the test is among the sources.
    It is true iff the rule's resource set contains the wildcard token or
    contains the requested resource exactly. *)
Definition ResourceMatches (r : Rule) (requestedResource : string) : bool :=
  existsb
    (fun resource =>
       String.eqb resource ResourceAll || String.eqb resource requestedResource)
    (Resources r).

(** Modelled from the spec: [Rule.ResourceNameMatches] is declared in the
    same absent file.  An empty resource-name set matches any requested
    name; a non-empty set requires an exact membership match. *)
Definition ResourceNameMatches (r : Rule) (requestedResourceName : string) : bool :=
  match ResourceNames r with
  | [] => true
  | names => existsb (fun name => String.eqb name requestedResourceName) names
  end.

End Matcher.

(** The rule built by the table-driven tests: only one field is set. *)
Definition rule_with_resources (resources : list string) : Rule :=
  {| Verbs := []; Resources := resources; ResourceNames := [] |}.

Definition rule_with_names (resourceNames : list string) : Rule :=
  {| Verbs := []; Resources := []; ResourceNames := resourceNames |}.

End rbac.

(** ** The go-ldap client, as the directory provider uses it *)

Module goldap.

(** [ldap.EntryAttribute] and [ldap.Entry]. *)
Record EntryAttribute : Type := {
  AttrName : string;
  Values : list string
}.

Record Entry : Type := {
  DN : string;
  Attributes : list EntryAttribute
}.

(** [Entry.GetAttributeValues]: the values of the first attribute of that
    name, or none. *)
Fixpoint attribute_values (attrs : list EntryAttribute) (attribute : string)
  : list string :=
  match attrs with
  | [] => []
  | attr :: rest =>
      if String.eqb (AttrName attr) attribute then Values attr
      else attribute_values rest attribute
  end.

Definition GetAttributeValues (e : Entry) (attribute : string) : list string :=
  attribute_values (Attributes e) attribute.

(** [Entry.GetAttributeValue]: the first value, or the empty string. *)
Definition GetAttributeValue (e : Entry) (attribute : string) : string :=
  match GetAttributeValues e attribute with
  | [] => EmptyString
  | v :: _ => v
  end.

(** Search scopes and alias policies of the protocol. *)
Inductive Scope : Type := ScopeBaseObject | ScopeSingleLevel | ScopeWholeSubtree.

Inductive DerefAliases : Type :=
  NeverDerefAliases | DerefInSearching | DerefFindingBaseObj | DerefAlways.

(** [ldap.SearchRequest], with the fields [ldap.NewSearchRequest] sets (the
    controls are always nil here). *)
Record SearchRequest : Type := {
  BaseDN : string;
  SearchScope : Scope;
  Deref : DerefAliases;
  SizeLimit : nat;
  TimeLimit : nat;
  TypesOnly : bool;
  Filter : string;
  RequestedAttributes : list string
}.

Definition NewSearchRequest (baseDN : string) (scope : Scope)
  (deref : DerefAliases) (sizeLimit timeLimit : nat) (typesOnly : bool)
  (filter : string) (attributes : list string) : SearchRequest :=
  {| BaseDN := baseDN; SearchScope := scope; Deref := deref;
     SizeLimit := sizeLimit; TimeLimit := timeLimit; TypesOnly := typesOnly;
     Filter := filter; RequestedAttributes := attributes |}.

Record SearchResult : Type := {
  Entries : list Entry
}.

(** What the provider asks of the client, in the order it asks. *)
Inductive Event : Type :=
| EvDialURL (url : string) (dialTimeout : Z)
| EvStartTLS (insecureSkipVerify : bool)
| EvBind (username password : string)
| EvSearch (request : SearchRequest)
| EvClose.

(** A directory answers each call; its answer may depend on everything
    that was asked before ([history], oldest first), which covers servers
    that change state, drop connections or lock accounts.  A search
    answers with a result or with an error, as the client promises of
    [Search]: a nil error comes with a non-nil result. *)
Record Directory : Type := {
  dial : list Event -> string -> option error;
  start_tls : list Event -> option error;
  bind : list Event -> string -> string -> option error;
  search : list Event -> SearchRequest -> SearchResult + error
}.

(** A computation that talks to the directory: from the history to a value
    and the events it issued. *)
Definition IO (A : Type) : Type := list Event -> A * list Event.

Definition ret {A : Type} (a : A) : IO A := fun _ => (a, []).

Definition bindIO {A B : Type} (m : IO A) (k : A -> IO B) : IO B :=
  fun history =>
    let (a, issued) := m history in
    let (b, issued') := k a (history ++ issued) in
    (b, issued ++ issued').

Definition value {A : Type} (r : A * list Event) : A := fst r.
Definition trace {A : Type} (r : A * list Event) : list Event := snd r.

Declare Scope io_scope.
Delimit Scope io_scope with io.
Notation "x <- m ;; k" := (bindIO m (fun x => k))
  (at level 100, m at next level, right associativity) : io_scope.
Notation "m ;;; k" := (bindIO m (fun _ => k))
  (at level 100, right associativity) : io_scope.

Section Client.

Variable dir : Directory.

(** [ldap.DialURL(url, ldap.DialWithDialer(&net.Dialer{Timeout: t}))]. *)
Definition DialURL (url : string) (dialTimeout : Z) : IO (option error) :=
  fun history => (dial dir history url, [EvDialURL url dialTimeout]).

(** [l.StartTLS(&tls.Config{InsecureSkipVerify: b})]. *)
Definition StartTLS (insecureSkipVerify : bool) : IO (option error) :=
  fun history => (start_tls dir history, [EvStartTLS insecureSkipVerify]).

(** [l.Bind(username, password)]. *)
Definition Bind (username password : string) : IO (option error) :=
  fun history => (bind dir history username password, [EvBind username password]).

(** [l.Search(request)]. *)
Definition Search (request : SearchRequest) : IO (SearchResult + error) :=
  fun history => (search dir history request, [EvSearch request]).

(** [l.Close()]. *)
Definition Close : IO unit := fun _ => (tt, [EvClose]).

(** [defer l.Close()]: the body runs, then the connection is closed on
    whichever path the body returned. *)
Definition defer_Close {A : Type} (body : IO A) : IO A :=
  (r <- body ;; Close ;;; ret r)%io.

End Client.

End goldap.

(** ** backend/authentication: the capability set of a provider *)

Module authentication.

(** The result of [Authenticate] and [Refresh]: a claims pointer and an
    error, unless the call panicked. *)
Definition Result : Type := outcome (option corev2.Claims * option error).

(** The four operations both providers implement. *)
Class Provider (P : Type) : Type := {
  Authenticate : P -> string -> string -> goldap.IO Result;
  Refresh : P -> option corev2.Claims -> goldap.IO Result;
  Name : P -> string;
  Type_ : P -> string
}.

(** A call returns: it does not panic. *)
Definition returns (r : Result) : Prop := exists v, r = Returns v.

(** A call succeeded with claims [c]: it returned them with a nil error. *)
Definition succeeds_with (r : Result * list goldap.Event) (c : corev2.Claims)
  : Prop :=
  goldap.value r = Returns (Some c, None).

(** The claims [c] are attributed to the provider [name] and to [username],
    and were minted by [NewClaims] for an identity of that username whose
    disabled flag is false. *)
Definition issued_for (NewClaims : jwt.NewClaimsFn) (name username : string)
  (c : corev2.Claims) : Prop :=
  corev2.ProviderID (corev2.Provider c) = name /\
  corev2.UserID (corev2.Provider c) = username /\
  exists user minted,
    corev2.Username user = username /\
    corev2.Disabled user = false /\
    NewClaims user = (Some minted, None) /\
    c = corev2.set_Provider minted
          {| corev2.ProviderID := name; corev2.UserID := username |}.

(** Every successful [Authenticate] and every successful [Refresh] of a
    provider returns claims issued for the authenticated username, which
    for [Refresh] is the user identifier of the presented claims. *)
Definition claims_invariant {P : Type} (provider : Provider P)
  (NewClaims : jwt.NewClaimsFn) : Prop :=
  forall (p : P) (history : list goldap.Event),
    (forall username password c,
       succeeds_with (Authenticate p username password history) c ->
       issued_for NewClaims (Name p) username c) /\
    (forall presented c,
       succeeds_with (Refresh p (Some presented) history) c ->
       issued_for NewClaims (Name p)
         (corev2.UserID (corev2.Provider presented)) c).

End authentication.

(** ** backend/authentication/providers/ldap *)

Module ldap.

Import corev2 goldap.

(** [const Type]. *)
Definition Type_ : string := "ldap".

Record Provider : Type := {
  Meta : ObjectMeta;
  BindUsername : string;
  BindPassword : string;
  StartTLS : bool;
  URL : string;
  UserBaseDN : string;
  UserAttribute : string;
  UserClass : string;
  GroupBaseDN : string;
  GroupAttribute : string;
  GroupClass : string;
  GroupUserDNAttribute : string
}.

(** [time.Second], in nanoseconds, and [var timeout = 2 * time.Second]. *)
Definition Second : Z := 1000000000.
Definition timeout : Z := 2 * Second.

(** [fmt.Sprintf] of the format with three string verbs that both searches
    use for their filter. *)
Definition Sprintf_filter (class attribute v : string) : string :=
  ("(&(objectClass=" ++ class ++ ")(" ++ attribute ++ "=" ++ v ++ "))")%string.

(** The [searchRequest] of [getDN]. *)
Definition getDN_searchRequest (p : Provider) (username : string) : SearchRequest :=
  NewSearchRequest (UserBaseDN p) ScopeWholeSubtree NeverDerefAliases 0 0 false
    (Sprintf_filter (UserClass p) (UserAttribute p) username)
    ["dn"%string].

(** The [searchRequest] of [getGroups]. *)
Definition getGroups_searchRequest (p : Provider) (userdn : string) : SearchRequest :=
  NewSearchRequest (GroupBaseDN p) ScopeWholeSubtree NeverDerefAliases 0 0 false
    (Sprintf_filter (GroupClass p) (GroupUserDNAttribute p) userdn)
    [GroupAttribute p].

(** The zero [Entry]; [entries_at_0] stands for the index expression
    [sr.Entries[0]], which [getDN] evaluates only after it has tested that
    the slice has length one (see [getDN_index_in_range]). *)
Definition zero_Entry : Entry := {| DN := EmptyString; Attributes := [] |}.

Definition entries_at_0 (entries : list Entry) : Entry := nth 0 entries zero_Entry.

Definition ambiguous_or_missing : error :=
  errors_New "User does not exist or too many entries returned".

(** [func (p *Provider) Name() string] and [Type() string]. *)
Definition Name (p : Provider) : string := Type_.
Definition Type_of (p : Provider) : string := Type_.

Section WithDirectory.

Variable NewClaims : jwt.NewClaimsFn.
Variable dir : Directory.

(** [func (p *Provider) getDN(username string) (string, error)]. *)
Definition getDN (p : Provider) (username : string) : IO (string * option error) :=
  (dialed <- DialURL dir (URL p) timeout ;;
   match dialed with
   | Some err => ret (EmptyString, Some err)
   | None =>
     defer_Close
       (upgraded <- (if StartTLS p then goldap.StartTLS dir true else ret None) ;;
        match upgraded with
        | Some err => ret (EmptyString, Some err)
        | None =>
          bound <- Bind dir (BindUsername p) (BindPassword p) ;;
          match bound with
          | Some err => ret (EmptyString, Some err)
          | None =>
            found <- Search dir (getDN_searchRequest p username) ;;
            match found with
            | inr err => ret (EmptyString, Some err)
            | inl sr =>
              if negb (length (Entries sr) =? 1)
              then ret (EmptyString, Some ambiguous_or_missing)
              else
                let userdn := DN (entries_at_0 (Entries sr)) in
                ret (userdn, None)
            end
          end
        end)
   end)%io.

(** [func (p *Provider) validatePassword(dn string, password string) error]. *)
Definition validatePassword (p : Provider) (dn password : string) : IO (option error) :=
  (dialed <- DialURL dir (URL p) timeout ;;
   match dialed with
   | Some err => ret (Some err)
   | None =>
     defer_Close
       (upgraded <- (if StartTLS p then goldap.StartTLS dir true else ret None) ;;
        match upgraded with
        | Some err => ret (Some err)
        | None =>
          bound <- Bind dir dn password ;;
          match bound with
          | Some err => ret (Some err)
          | None => ret None
          end
        end)
   end)%io.

(** The loop of [getGroups]: [groups] starts as the nil slice and every
    entry appends its value of the group attribute. *)
Definition collect_groups (p : Provider) (entries : list Entry) : list string :=
  fold_left
    (fun groups entry => groups ++ [GetAttributeValue entry (GroupAttribute p)])
    entries [].

(** [func (p *Provider) getGroups(userdn string) ([]string, error)]. *)
Definition getGroups (p : Provider) (userdn : string) : IO (list string * option error) :=
  (dialed <- DialURL dir (URL p) timeout ;;
   match dialed with
   | Some err => ret ([], Some err)
   | None =>
     defer_Close
       (upgraded <- (if StartTLS p then goldap.StartTLS dir true else ret None) ;;
        match upgraded with
        | Some err => ret ([], Some err)
        | None =>
          bound <- Bind dir (BindUsername p) (BindPassword p) ;;
          match bound with
          | Some err => ret ([], Some err)
          | None =>
            found <- Search dir (getGroups_searchRequest p userdn) ;;
            match found with
            | inr err => ret ([], Some err)
            | inl sr => ret (collect_groups p (Entries sr), None)
            end
          end
        end)
   end)%io.

(** [func (p *Provider) claims(username string, groups []string)].  The
    assignment to [claims.Provider] comes before the error is looked at,
    and dereferences the pointer [jwt.NewClaims] returned. *)
Definition claims (p : Provider) (username : string) (groups : list string)
  : authentication.Result :=
  let user := {| Username := username; Groups := groups; Disabled := false |} in
  let '(claims, err) := NewClaims user in
  match claims with
  | None => Panics nil_dereference
  | Some c =>
      let c' := set_Provider c {| ProviderID := Name p; UserID := username |} in
      Returns (Some c', err)
  end.

(** [func (p *Provider) Authenticate(ctx, username, password)]. *)
Definition Authenticate (p : Provider) (username password : string)
  : IO authentication.Result :=
  (resolved <- getDN p username ;;
   let '(dn, err) := resolved in
   match err with
   | Some err => ret (Returns (None, Some err))
   | None =>
     verified <- validatePassword p dn password ;;
     match verified with
     | Some err => ret (Returns (None, Some err))
     | None =>
       membership <- getGroups p dn ;;
       let '(groups, err) := membership in
       match err with
       | Some err => ret (Returns (None, Some err))
       | None => ret (claims p username groups)
       end
     end
   end)%io.

(** [func (p *Provider) Refresh(ctx, claims)].  Reading
    [claims.Provider.UserID] dereferences the argument. *)
Definition Refresh (p : Provider) (presented : option Claims)
  : IO authentication.Result :=
  match presented with
  | None => ret (Panics nil_dereference)
  | Some presented =>
    (resolved <- getDN p (UserID (corev2.Provider presented)) ;;
     let '(dn, err) := resolved in
     match err with
     | Some err => ret (Returns (None, Some err))
     | None =>
       membership <- getGroups p dn ;;
       let '(groups, err) := membership in
       match err with
       | Some err => ret (Returns (None, Some err))
       | None => ret (claims p (UserID (corev2.Provider presented)) groups)
       end
     end)%io
  end.

End WithDirectory.

(** The provider [p] with its embedded [ObjectMeta] replaced: what a
    method with a pointer receiver leaves behind when it assigns to
    [p.ObjectMeta] or to one of its fields. *)
Definition with_Meta (p : Provider) (meta : ObjectMeta) : Provider :=
  {| Meta := meta;
     BindUsername := BindUsername p;
     BindPassword := BindPassword p;
     StartTLS := StartTLS p;
     URL := URL p;
     UserBaseDN := UserBaseDN p;
     UserAttribute := UserAttribute p;
     UserClass := UserClass p;
     GroupBaseDN := GroupBaseDN p;
     GroupAttribute := GroupAttribute p;
     GroupClass := GroupClass p;
     GroupUserDNAttribute := GroupUserDNAttribute p |}.

(** [func (p *Provider) GetObjectMeta() corev2.ObjectMeta]. *)
Definition GetObjectMeta (p : Provider) : ObjectMeta := Meta p.

(** [func (p *Provider) SetObjectMeta(meta corev2.ObjectMeta)]. *)
Definition SetObjectMeta (p : Provider) (meta : ObjectMeta) : Provider :=
  with_Meta p meta.

(** [func (p *Provider) SetNamespace(namespace string)]. *)
Definition SetNamespace (p : Provider) (namespace : string) : Provider :=
  with_Meta p {| corev2.Name := corev2.Name (Meta p); Namespace := namespace |}.

(** [StorePrefix], [RBACName] and [URIPath]. *)
Definition StorePrefix (p : Provider) : string := EmptyString.
Definition RBACName (p : Provider) : string := EmptyString.
Definition URIPath (p : Provider) : string := EmptyString.

(** [func (p *Provider) Validate() error]: the provider after the call,
    and the error returned. *)
Definition Validate (p : Provider) : Provider * option error :=
  (with_Meta p {| corev2.Name := Type_; Namespace := Namespace (Meta p) |}, None).

#[export] Instance provider (NewClaims : jwt.NewClaimsFn) (dir : Directory)
  : authentication.Provider Provider := {
  authentication.Authenticate := Authenticate NewClaims dir;
  authentication.Refresh := Refresh NewClaims dir;
  authentication.Name := Name;
  authentication.Type_ := Type_of
}.

End ldap.

(** ** backend/authentication/providers/allowall *)

Module allowall.

Import corev2.

(** [const Type]. *)
Definition Type_ : string := "allowall".

Record Provider : Type := {
  Meta : ObjectMeta
}.

Definition Name (p : Provider) : string := Type_.
Definition Type_of (p : Provider) : string := Type_.

Section WithJWT.

Variable NewClaims : jwt.NewClaimsFn.

(** [func (p *Provider) claims(username string)]. *)
Definition claims (p : Provider) (username : string) : authentication.Result :=
  let user := {| Username := username;
                 Groups := ["cluster-admins"%string];
                 Disabled := false |} in
  let '(claims, err) := NewClaims user in
  match claims with
  | None => Panics nil_dereference
  | Some c =>
      let c' := set_Provider c {| ProviderID := Name p; UserID := username |} in
      Returns (Some c', err)
  end.

(** [func (p *Provider) Authenticate(ctx, username, password)]. *)
Definition Authenticate (p : Provider) (username password : string)
  : goldap.IO authentication.Result :=
  goldap.ret (claims p username).

(** [func (p *Provider) Refresh(ctx, claims)]. *)
Definition Refresh (p : Provider) (presented : option Claims)
  : goldap.IO authentication.Result :=
  match presented with
  | None => goldap.ret (Panics nil_dereference)
  | Some presented => goldap.ret (claims p (UserID (corev2.Provider presented)))
  end.

End WithJWT.

(** [func (p *Provider) GetObjectMeta() corev2.ObjectMeta]. *)
Definition GetObjectMeta (p : Provider) : ObjectMeta := Meta p.

(** [func (p *Provider) SetObjectMeta(meta corev2.ObjectMeta)]. *)
Definition SetObjectMeta (p : Provider) (meta : ObjectMeta) : Provider :=
  {| Meta := meta |}.

(** [func (p *Provider) SetNamespace(namespace string)]. *)
Definition SetNamespace (p : Provider) (namespace : string) : Provider :=
  {| Meta := {| corev2.Name := corev2.Name (Meta p); Namespace := namespace |} |}.

(** [StorePrefix], [RBACName] and [URIPath]. *)
Definition StorePrefix (p : Provider) : string := EmptyString.
Definition RBACName (p : Provider) : string := EmptyString.
Definition URIPath (p : Provider) : string := EmptyString.

(** [func (p *Provider) Validate() error]: the provider after the call,
    and the error returned. *)
Definition Validate (p : Provider) : Provider * option error :=
  ({| Meta := {| corev2.Name := Type_; Namespace := Namespace (Meta p) |} |}, None).

#[export] Instance provider (NewClaims : jwt.NewClaimsFn)
  : authentication.Provider Provider := {
  authentication.Authenticate := Authenticate NewClaims;
  authentication.Refresh := Refresh NewClaims;
  authentication.Name := Name;
  authentication.Type_ := Type_of
}.

End allowall.

(** ** Reaching the directory: the histories at which each call is answered *)

Module reach.

Import goldap ldap.

(** The history once the connection is dialled, once the optional TLS
    upgrade is done, and once the service account is bound. *)
Definition after_dial (p : Provider) (history : list Event) : list Event :=
  history ++ [EvDialURL (URL p) timeout].

Definition after_tls (p : Provider) (history : list Event) : list Event :=
  after_dial p history ++ (if StartTLS p then [EvStartTLS true] else []).

Definition after_service_bind (p : Provider) (history : list Event) : list Event :=
  after_tls p history ++ [EvBind (BindUsername p) (BindPassword p)].

Section WithDirectory.

Variable dir : Directory.

(** The dial succeeds and, when configured, so does the TLS upgrade. *)
Definition connects (p : Provider) (history : list Event) : Prop :=
  dial dir history (URL p) = None /\
  (StartTLS p = true -> start_tls dir (after_dial p history) = None).

(** The bind as [dn] with [password] is reached and answered by [answer]. *)
Definition user_bind_answers (p : Provider) (dn password : string)
  (history : list Event) (answer : option error) : Prop :=
  connects p history /\ bind dir (after_tls p history) dn password = answer.

(** The service-account bind is reached and succeeds. *)
Definition service_binds (p : Provider) (history : list Event) : Prop :=
  user_bind_answers p (BindUsername p) (BindPassword p) history None.

(** The user search of [getDN] is reached and returns [sr]. *)
Definition user_search_returns (p : Provider) (username : string)
  (history : list Event) (sr : SearchResult) : Prop :=
  service_binds p history /\
  search dir (after_service_bind p history) (getDN_searchRequest p username) = inl sr.

(** The group search of [getGroups] is reached and returns [sr]. *)
Definition group_search_returns (p : Provider) (userdn : string)
  (history : list Event) (sr : SearchResult) : Prop :=
  service_binds p history /\
  search dir (after_service_bind p history) (getGroups_searchRequest p userdn) = inl sr.

End WithDirectory.

(** The events [issued] begin with the dial of the directory of [p]. *)
Definition starts_with_dial (p : Provider) (issued : list Event) : Prop :=
  exists rest, issued = EvDialURL (URL p) timeout :: rest.

(** A bind event that uses the service account of [p]. *)
Definition is_service_bind (p : Provider) (e : Event) : Prop :=
  match e with
  | EvBind username password => username = BindUsername p /\ password = BindPassword p
  | _ => True
  end.

(** Two directories that answer alike, except possibly to binds that do
    not use the service account of [p]. *)
Definition agree_up_to_user_binds (p : Provider) (d1 d2 : Directory) : Prop :=
  (forall history url, dial d1 history url = dial d2 history url) /\
  (forall history, start_tls d1 history = start_tls d2 history) /\
  (forall history request, search d1 history request = search d2 history request) /\
  (forall history,
     bind d1 history (BindUsername p) (BindPassword p) =
     bind d2 history (BindUsername p) (BindPassword p)).

End reach.

(** ** Concrete directories and token issuers *)

Module scenario.

Import corev2 goldap.

Definition meta : ObjectMeta := {| Name := "ldap"; Namespace := EmptyString |}.

Definition example_provider : ldap.Provider :=
  {| ldap.Meta := meta;
     ldap.BindUsername := "cn=reader,dc=example,dc=org";
     ldap.BindPassword := "reader-secret";
     ldap.StartTLS := true;
     ldap.URL := "ldap://directory.example.org:389";
     ldap.UserBaseDN := "ou=people,dc=example,dc=org";
     ldap.UserAttribute := "uid";
     ldap.UserClass := "inetOrgPerson";
     ldap.GroupBaseDN := "ou=groups,dc=example,dc=org";
     ldap.GroupAttribute := "cn";
     ldap.GroupClass := "groupOfNames";
     ldap.GroupUserDNAttribute := "member" |}.

Definition bob_dn : string := "uid=bob,ou=people,dc=example,dc=org".

Definition person (dn : string) : Entry := {| DN := dn; Attributes := [] |}.

Definition group (cn : string) : Entry :=
  {| DN := ("cn=" ++ cn ++ ",ou=groups,dc=example,dc=org")%string;
     Attributes := [ {| AttrName := "cn"; Values := [cn] |} ] |}.

Definition invalid_credentials : error := ldap_Error 49 "Invalid Credentials".
Definition network_error : error := ldap_Error 200 "Network Error".

(** The entries of the directory: one [bob], two [twin]s, nobody else;
    [bob] is a member of two groups. *)
Definition answer_search (request : SearchRequest) : SearchResult :=
  let filter := Filter request in
  if String.eqb filter (ldap.Sprintf_filter "inetOrgPerson" "uid" "bob")
  then {| Entries := [person bob_dn] |}
  else if String.eqb filter (ldap.Sprintf_filter "inetOrgPerson" "uid" "twin")
  then {| Entries := [person "uid=twin,ou=people,dc=example,dc=org";
                      person "uid=twin,ou=staff,dc=example,dc=org"] |}
  else if String.eqb filter (ldap.Sprintf_filter "groupOfNames" "member" bob_dn)
  then {| Entries := [group "ops"; group "dev"] |}
  else {| Entries := [] |}.

Definition answer_bind (bob_password : string) (username password : string)
  : option error :=
  if String.eqb username "cn=reader,dc=example,dc=org" && String.eqb password "reader-secret"
  then None
  else if String.eqb username bob_dn && String.eqb password bob_password
  then None
  else Some invalid_credentials.

(** A directory that is always reachable and in which [bob]'s password is
    [bob_password]. *)
Definition directory (bob_password : string) : Directory :=
  {| dial := fun _ _ => None;
     start_tls := fun _ => None;
     bind := fun _ => answer_bind bob_password;
     search := fun _ request => inl (answer_search request) |}.

Definition is_dial (e : Event) : bool :=
  match e with EvDialURL _ _ => true | _ => false end.

(** The same directory behind a network that lets one connection through
    and then fails: every dial after the first is refused. *)
Definition directory_then_unreachable (bob_password : string) : Directory :=
  {| dial := fun history _ =>
       if existsb is_dial history then Some network_error else None;
     start_tls := fun _ => None;
     bind := fun _ => answer_bind bob_password;
     search := fun _ request => inl (answer_search request) |}.

(** A directory that accepts the service account and refuses every other
    bind with [cause]: wrong password, disabled account, lost connection. *)
Definition directory_refusing (cause : error) : Directory :=
  {| dial := fun _ _ => None;
     start_tls := fun _ => None;
     bind := fun _ username password =>
       if String.eqb username "cn=reader,dc=example,dc=org"
          && String.eqb password "reader-secret"
       then None else Some cause;
     search := fun _ request => inl (answer_search request) |}.

Definition zero_Claims : Claims :=
  {| Subject := EmptyString; ClaimGroups := [];
     Provider := {| ProviderID := EmptyString; UserID := EmptyString |};
     IssuedAt := 0; ExpiresAt := 0 |}.

(** An issuer that always mints claims for the user it is given. *)
Definition mint : jwt.NewClaimsFn :=
  fun user =>
    (Some {| Subject := Username user; ClaimGroups := Groups user;
             Provider := {| ProviderID := EmptyString; UserID := EmptyString |};
             IssuedAt := 1000; ExpiresAt := 1900 |},
     None).

(** The same issuer called at a later time: other dates in the claims. *)
Definition mint_later : jwt.NewClaimsFn :=
  fun user =>
    (Some {| Subject := Username user; ClaimGroups := Groups user;
             Provider := {| ProviderID := EmptyString; UserID := EmptyString |};
             IssuedAt := 1600; ExpiresAt := 2500 |},
     None).

Definition signing_failed : error := errors_New "could not sign the claims".

(** An issuer that fails and hands back a non-nil claims value with the
    error, and one that fails and hands back nil. *)
Definition mint_failing : jwt.NewClaimsFn :=
  fun user => (Some zero_Claims, Some signing_failed).

Definition mint_failing_nil : jwt.NewClaimsFn :=
  fun user => (None, Some signing_failed).

Definition admin : allowall.Provider := {| allowall.Meta := meta |}.

End scenario.

(** ** The connection discipline of the directory steps *)

Module protocol.

Import goldap ldap.

(** What the client holds between two calls: no connection, a connection
    (upgraded to TLS or not, bound or not), or a connection on which a call
    has failed. *)
Inductive Conn : Type :=
| NoConn
| Established (encrypted bound : bool)
| Failed.

Section WithDirectory.

Variable dir : Directory.
Variable p : Provider.

(** One call, judged against the discipline: a dial only when no
    connection is held, to the configured URL with the dial timeout; a TLS
    upgrade only when configured, first thing on a fresh connection; a
    bind only on a connection that is encrypted when TLS is configured; a
    search only after a bind that succeeded; after a failed call only the
    close.  [None] is a call out of place. *)
Definition step (c : Conn) (history : list Event) (e : Event) : option Conn :=
  match c, e with
  | NoConn, EvDialURL url dialTimeout =>
      if String.eqb url (URL p) && Z.eqb dialTimeout timeout then
        match dial dir history url with
        | None => Some (Established false false)
        | Some _ => Some NoConn
        end
      else None
  | Established false false, EvStartTLS _ =>
      if StartTLS p then
        match start_tls dir history with
        | None => Some (Established true false)
        | Some _ => Some Failed
        end
      else None
  | Established encrypted false, EvBind username password =>
      if implb (StartTLS p) encrypted then
        match bind dir history username password with
        | None => Some (Established encrypted true)
        | Some _ => Some Failed
        end
      else None
  | Established encrypted true, EvSearch request =>
      match search dir history request with
      | inl _ => Some (Established encrypted true)
      | inr _ => Some Failed
      end
  | Established _ _, EvClose => Some NoConn
  | Failed, EvClose => Some NoConn
  | _, _ => None
  end.

(** The calls [issued] after [history], judged one after the other. *)
Fixpoint run (c : Conn) (history issued : list Event) : option Conn :=
  match issued with
  | [] => Some c
  | e :: rest =>
      match step c history e with
      | Some c' => run c' (history ++ [e]) rest
      | None => None
      end
  end.

(** The calls keep the discipline and leave no connection behind. *)
Definition disciplined (history issued : list Event) : Prop :=
  run NoConn history issued = Some NoConn.

End WithDirectory.

(** The number of dials among the calls. *)
Definition dials (issued : list Event) : nat :=
  length (filter (fun e => match e with EvDialURL _ _ => true | _ => false end)
            issued).

End protocol.

(** ** Where an error comes from, and directories that do not change *)

Module provenance.

Import goldap.

(** The error [e] is an answer of the directory to some call. *)
Definition from_directory (dir : Directory) (e : error) : Prop :=
  (exists history url, dial dir history url = Some e) \/
  (exists history, start_tls dir history = Some e) \/
  (exists history username password,
     bind dir history username password = Some e) \/
  (exists history request, search dir history request = inr e).

(** A directory whose answers do not depend on what was asked before. *)
Definition history_independent (dir : Directory) : Prop :=
  forall h h',
    (forall url, dial dir h url = dial dir h' url) /\
    start_tls dir h = start_tls dir h' /\
    (forall username password,
       bind dir h username password = bind dir h' username password) /\
    (forall request, search dir h request = search dir h' request).

(** The error, if any, with which the directory answers the call [e]
    issued after [history]. *)
Definition answer (dir : Directory) (history : list Event) (e : Event)
  : option error :=
  match e with
  | EvDialURL url _ => dial dir history url
  | EvStartTLS _ => start_tls dir history
  | EvBind username password => bind dir history username password
  | EvSearch request =>
      match search dir history request with
      | inl _ => None
      | inr err => Some err
      end
  | EvClose => None
  end.


(** A call built from the configuration of the provider alone. *)
Definition from_configuration (p : ldap.Provider) (e : Event) : Prop :=
  match e with
  | EvDialURL url dialTimeout => url = ldap.URL p /\ dialTimeout = ldap.timeout
  | EvStartTLS insecureSkipVerify =>
      ldap.StartTLS p = true /\ insecureSkipVerify = true
  | EvBind username password =>
      username = ldap.BindUsername p /\ password = ldap.BindPassword p
  | EvSearch _ => False
  | EvClose => True
  end.

(** A call of a login of [username] with [password], [resolved] being the
    DN that [getDN] resolved, if any: a call built from the configuration
    alone, the search for the user, built from the configuration and the
    username, or, once a DN is resolved, the bind as that DN with the
    password and the search for the groups of that DN.  The password
    enters the bind as the resolved DN and no other call. *)
Definition login_call (p : ldap.Provider) (username password : string)
  (resolved : option string) (e : Event) : Prop :=
  from_configuration p e \/
  e = EvSearch (ldap.getDN_searchRequest p username) \/
  exists dn,
    resolved = Some dn /\
    (e = EvBind dn password \/
     e = EvSearch (ldap.getGroups_searchRequest p dn)).

(** The DN of a result of [getDN], when it came with a nil error. *)
Definition resolved_dn (r : string * option error) : option string :=
  match r with
  | (dn, None) => Some dn
  | (_, Some _) => None
  end.

End provenance.

(** ** Go's strings package: prefixes and the replacer *)

Module strings.

(** [strings.HasPrefix(s, prefix)]. *)
Fixpoint HasPrefix (s prefix : string) {struct prefix} : bool :=
  match prefix with
  | EmptyString => true
  | String a prefix' =>
      match s with
      | EmptyString => false
      | String b s' => Ascii.eqb a b && HasPrefix s' prefix'
      end
  end.

(** A [*strings.Replacer] built by [strings.NewReplacer] from pairs of an
    old and a new string.  The model covers replacers none of whose old
    strings is empty, which is the case of every replacer built here. *)
Definition Replacer : Type := list (string * string).

Definition NewReplacer (oldnew : list (string * string)) : Replacer := oldnew.

(** The match at the head of [s]: the old strings are compared in
    argument order, and the first that is a prefix of [s] wins.  The
    result is the new string and the length of the old one. *)
Fixpoint lookup (r : Replacer) (s : string) : option (string * nat) :=
  match r with
  | [] => None
  | (old, new) :: rest =>
      if HasPrefix s old then Some (new, String.length old) else lookup rest s
  end.

(** The scan of [Replacer.Replace]: at each position, left to right, a
    match is replaced and the scan resumes after the matched text, which
    [skip] counts down; without a match the byte is copied.  Replaced
    text is never scanned again. *)
Fixpoint scan (r : Replacer) (skip : nat) (s : string) : string :=
  match s with
  | EmptyString => EmptyString
  | String c rest =>
      match skip with
      | S skip' => scan r skip' rest
      | O =>
          match lookup r s with
          | Some (new, n) => (new ++ scan r (Nat.pred n) rest)%string
          | None => String c (scan r 0 rest)
          end
      end
  end.

(** [func (r *Replacer) Replace(s string) string]. *)
Definition Replace (r : Replacer) (s : string) : string := scan r 0 s.

(** Some suffix of [s] begins with [word]: [strings.Contains(s, word)]. *)
Fixpoint Contains (s word : string) : bool :=
  HasPrefix s word ||
  match s with
  | EmptyString => false
  | String _ rest => Contains rest word
  end.

End strings.

(** ** cli/elements/globals: colours *)

Module globals.

Section WithAnsi.

(** [ansi.ColorFunc(style)], applied to a text: the library is outside the
    sources, so the styles are parameterised by it. *)
Variable ColorFunc : string -> string -> string.

(** [TitleStyle], [PrimaryTextStyle] and [CTATextStyle]. *)
Definition TitleStyle : string -> string := ColorFunc "white+bh".
Definition PrimaryTextStyle : string -> string := ColorFunc "blue+b".
Definition CTATextStyle : string -> string := ColorFunc "red+b:white+h".

(** [func BooleanStyle(in string) string]. *)
Definition BooleanStyle (input : string) : string :=
  let trueStyle := ColorFunc "blue" in
  let falseStyle := ColorFunc "red" in
  let replacer :=
    strings.NewReplacer
      [("false"%string, falseStyle "false"%string);
       ("true"%string, trueStyle "true"%string)] in
  strings.Replace replacer input.

(** [func BooleanStyleP(in bool) string]. *)
Definition BooleanStyleP (input : bool) : string :=
  if input then BooleanStyle "true" else BooleanStyle "false".

End WithAnsi.

(** [ansi.ColorFunc] once colours are switched off: every style leaves the
    text as it is. *)
Definition plain (style text : string) : string := text.

(** A colour function in the manner of the library: the text between the
    escape code of the style and the reset code. *)
Definition escape (style text : string) : string :=
  ("<" ++ style ++ ">" ++ text ++ "</>")%string.

End globals.

(** * Properties *)

(** ** Policy rule matcher *)

Section MatcherProperties.

Import rbac.

Variable ResourceAll : string.

Lemma existsb_eqb_In (x : string) (l : list string) :
  existsb (fun y => String.eqb y x) l = true <-> In x l.
Proof.
  induction l as [|y l IH]; simpl.
  - split; [discriminate | tauto].
  - rewrite orb_true_iff, IH, String.eqb_eq. intuition congruence.
Qed.

(** C1.  [ResourceMatches r x] is true exactly when the resource set of
    [r] contains the all-resources wildcard or contains [x]; with an empty
    resource set it is false for every [x]. *)
Theorem ResourceMatches_wildcard_or_member (r : Rule) (x : string) :
  (ResourceMatches ResourceAll r x = true <->
   In ResourceAll (Resources r) \/ In x (Resources r)) /\
  (Resources r = [] -> ResourceMatches ResourceAll r x = false).
Proof.
  unfold ResourceMatches. split.
  - induction (Resources r) as [|y l IH]; simpl.
    + split; [discriminate | tauto].
    + rewrite !orb_true_iff, IH, !String.eqb_eq. intuition congruence.
  - intros ->. reflexivity.
Qed.

(** C2.  With an empty resource-name set [ResourceNameMatches r n] is true
    for every [n], the empty name included; with a non-empty set it is true
    exactly when [n] is a member. *)
Theorem ResourceNameMatches_empty_or_member (r : Rule) (n : string) :
  (ResourceNames r = [] ->
   ResourceNameMatches r n = true /\ ResourceNameMatches r EmptyString = true) /\
  (ResourceNames r <> [] ->
   (ResourceNameMatches r n = true <-> In n (ResourceNames r))).
Proof.
  unfold ResourceNameMatches. split.
  - intros ->. split; reflexivity.
  - intros Hne. destruct (ResourceNames r) as [|y l] eqn:E; [congruence|].
    apply existsb_eqb_In.
Qed.

End MatcherProperties.

(** The rows of [TestRuleResourceMatches], with the wildcard token ["*"]. *)
Example TestRuleResourceMatches :
  rbac.ResourceMatches "*" (rbac.rule_with_resources []) "checks" = false /\
  rbac.ResourceMatches "*" (rbac.rule_with_resources ["*"%string]) "checks" = true /\
  rbac.ResourceMatches "*" (rbac.rule_with_resources ["checks"%string]) "events" = false /\
  rbac.ResourceMatches "*"
    (rbac.rule_with_resources ["checks"%string; "events"%string]) "events" = true.
Proof. repeat split; reflexivity. Qed.

(** The rows of [TestRuleResourceNameMatches]. *)
Example TestRuleResourceNameMatches :
  rbac.ResourceNameMatches (rbac.rule_with_names []) "checks" = true /\
  rbac.ResourceNameMatches (rbac.rule_with_names ["foo"%string]) EmptyString = false /\
  rbac.ResourceNameMatches (rbac.rule_with_names ["foo"%string]) "bar" = false /\
  rbac.ResourceNameMatches (rbac.rule_with_names ["foo"%string; "bar"%string]) "bar" = true.
Proof. repeat split; reflexivity. Qed.

(** ** Directory client flow *)

(** Unfolds the calls into the client and the plumbing of [IO]. *)
Ltac run_io :=
  cbv beta delta
    [goldap.bindIO goldap.ret goldap.defer_Close goldap.DialURL goldap.StartTLS
     goldap.Bind goldap.Search goldap.Close goldap.value goldap.trace
     reach.after_dial reach.after_tls reach.after_service_bind] in *;
  cbn beta iota zeta in *.

(** Case analysis on the answer of the directory to a dial, a TLS upgrade,
    a bind or a search that the goal inspects. *)
Ltac on_dial :=
  match goal with
  | |- context [goldap.dial ?d ?h ?u] =>
      let E := fresh "Hdial" in destruct (goldap.dial d h u) eqn:E
  end; run_io.

Ltac on_tls :=
  match goal with
  | |- context [goldap.start_tls ?d ?h] =>
      let E := fresh "Htls" in destruct (goldap.start_tls d h) eqn:E
  end; run_io.

Ltac on_bind :=
  match goal with
  | |- context [goldap.bind ?d ?h ?u ?w] =>
      let E := fresh "Hbind" in destruct (goldap.bind d h u w) eqn:E
  end; run_io.

Ltac on_search :=
  match goal with
  | |- context [goldap.search ?d ?h ?r] =>
      let E := fresh "Hsearch" in destruct (goldap.search d h r) eqn:E
  end; run_io.

Section DirectoryProperties.

Import corev2 goldap ldap reach.

Variable NewClaims : jwt.NewClaimsFn.
Variable dir : Directory.

(** The index expression of [getDN] is in range where it is evaluated. *)
Lemma getDN_index_in_range (entries : list Entry) :
  negb (length entries =? 1) = false ->
  nth_error entries 0 = Some (entries_at_0 entries).
Proof.
  destruct entries as [|e [|e' rest]]; simpl; intros H;
    try discriminate; reflexivity.
Qed.

Lemma length_one {A : Type} (l : list A) :
  (length l =? 1) = true <-> exists a, l = [a].
Proof.
  rewrite Nat.eqb_eq. split.
  - destruct l as [|a [|b l]]; simpl; intros H; try discriminate. now exists a.
  - intros [a ->]. reflexivity.
Qed.

(** [getDN] succeeds exactly when its search is reached and returns a single
    entry, whose DN it returns. *)
Lemma getDN_ok_iff (p : Provider) (username : string) (history : list Event)
  (dn : string) :
  value (getDN dir p username history) = (dn, None) <->
  exists sr e,
    user_search_returns dir p username history sr /\
    Entries sr = [e] /\ DN e = dn.
Proof.
  unfold user_search_returns, service_binds, user_bind_answers, connects, getDN.
  run_io. split.
  - on_dial; [discriminate|].
    destruct (StartTLS p) eqn:Hflag; run_io;
      [on_tls; [discriminate|] |];
      (on_bind; [discriminate|]);
      (on_search; [|discriminate]);
      (destruct (length (Entries s) =? 1) eqn:Hlen; run_io; [|discriminate]);
      apply length_one in Hlen; destruct Hlen as [e He];
      intros H; exists s, e; rewrite He in H; unfold entries_at_0 in H;
      simpl in H; repeat split; auto; congruence.
  - intros (sr & e & (((Hdial & Htls) & Hbind) & Hsearch) & He & Hdn).
    rewrite Hdial. run_io.
    destruct (StartTLS p) eqn:Hflag; run_io.
    + rewrite (Htls eq_refl). run_io. rewrite Hbind. run_io.
      rewrite Hsearch. run_io. rewrite He. subst dn. reflexivity.
    + rewrite Hbind. run_io.
      rewrite Hsearch. run_io. rewrite He. subst dn. reflexivity.
Qed.

(** C4.  [getDN] succeeds, returning the DN of the matched entry, exactly
    when its user search is reached and returns one entry; when the search
    returns no entry or more than one, [getDN] fails with one and the same
    error, whatever the number of entries. *)
Theorem getDN_exactly_one (p : Provider) (username : string) (history : list Event) :
  (forall dn,
     value (getDN dir p username history) = (dn, None) <->
     exists sr e,
       user_search_returns dir p username history sr /\
       Entries sr = [e] /\ DN e = dn) /\
  (forall sr,
     user_search_returns dir p username history sr ->
     length (Entries sr) <> 1 ->
     value (getDN dir p username history) =
       (EmptyString, Some ambiguous_or_missing)).
Proof.
  split; [intros dn; apply getDN_ok_iff|].
  intros sr (((Hdial & Htls) & Hbind) & Hsearch) Hlen.
  apply Nat.eqb_neq in Hlen.
  unfold getDN. run_io. rewrite Hdial. run_io.
  destruct (StartTLS p) eqn:Hflag; run_io;
    [rewrite (Htls eq_refl); run_io|];
    rewrite Hbind; run_io; rewrite Hsearch; run_io;
    rewrite Hlen; reflexivity.
Qed.

(** [validatePassword] returns nil exactly when the bind as the user is
    reached and succeeds. *)
Lemma validatePassword_ok_iff (p : Provider) (dn password : string)
  (history : list Event) :
  value (validatePassword dir p dn password history) = None <->
  user_bind_answers dir p dn password history None.
Proof.
  unfold user_bind_answers, connects, validatePassword. run_io. split.
  - on_dial; [discriminate|].
    destruct (StartTLS p) eqn:Hflag; run_io;
      [on_tls; [discriminate|] |];
      (on_bind; [discriminate|]); intros _; repeat split; auto; discriminate.
  - intros ((Hdial & Htls) & Hbind). rewrite Hdial. run_io.
    destruct (StartTLS p) eqn:Hflag; run_io;
      [rewrite (Htls eq_refl); run_io|];
      rewrite Hbind; reflexivity.
Qed.

(** When the bind as the user is reached and refused with [e],
    [validatePassword] returns that very [e]. *)
Lemma validatePassword_bind_error (p : Provider) (dn password : string)
  (history : list Event) (e : error) :
  user_bind_answers dir p dn password history (Some e) ->
  value (validatePassword dir p dn password history) = Some e.
Proof.
  unfold user_bind_answers, connects, validatePassword. run_io.
  intros ((Hdial & Htls) & Hbind). rewrite Hdial. run_io.
  destruct (StartTLS p) eqn:Hflag; run_io;
    [rewrite (Htls eq_refl); run_io|];
    rewrite Hbind; reflexivity.
Qed.

(** The loop of [getGroups] maps every entry to its group attribute. *)
Lemma fold_append_map {A B : Type} (f : A -> B) (l : list A) (acc : list B) :
  fold_left (fun groups entry => groups ++ [f entry]) l acc = acc ++ map f l.
Proof.
  revert acc. induction l as [|a l IH]; intros acc; simpl.
  - now rewrite app_nil_r.
  - rewrite IH, <- app_assoc. reflexivity.
Qed.

Lemma collect_groups_map (p : Provider) (entries : list Entry) :
  collect_groups p entries =
  map (fun entry => GetAttributeValue entry (GroupAttribute p)) entries.
Proof. unfold collect_groups. now rewrite fold_append_map. Qed.

(** C9.  When the group search of [getGroups] is reached and succeeds,
    [getGroups] returns, with a nil error, the value of the configured
    group attribute of every entry found; when no entry is found the
    group set is empty and the error is still nil. *)
Theorem getGroups_every_match (p : Provider) (userdn : string)
  (history : list Event) (sr : SearchResult) :
  group_search_returns dir p userdn history sr ->
  value (getGroups dir p userdn history) =
    (map (fun entry => GetAttributeValue entry (GroupAttribute p)) (Entries sr),
     None) /\
  (Entries sr = [] -> value (getGroups dir p userdn history) = ([], None)).
Proof.
  intros (((Hdial & Htls) & Hbind) & Hsearch).
  assert (Hrun : value (getGroups dir p userdn history) =
                 (collect_groups p (Entries sr), None)).
  { unfold getGroups. run_io. rewrite Hdial. run_io.
    destruct (StartTLS p) eqn:Hflag; run_io;
      [rewrite (Htls eq_refl); run_io|];
      rewrite Hbind; run_io; rewrite Hsearch; reflexivity. }
  rewrite Hrun, collect_groups_map. split; [reflexivity|].
  intros ->. reflexivity.
Qed.

(** ** The directory-backed provider *)

(** Each of the three directory steps begins by dialling the directory, so
    a step that ran has left at least that event in the trace. *)
Lemma getDN_dials (p : Provider) (username : string) (history : list Event) :
  starts_with_dial p (trace (getDN dir p username history)).
Proof.
  unfold starts_with_dial, getDN, bindIO, DialURL, trace.
  destruct (dial dir history (URL p)); [eexists; reflexivity|].
  destruct (defer_Close _ _) as [r issued]. eexists; reflexivity.
Qed.

Lemma validatePassword_dials (p : Provider) (dn password : string)
  (history : list Event) :
  starts_with_dial p (trace (validatePassword dir p dn password history)).
Proof.
  unfold starts_with_dial, validatePassword, bindIO, DialURL, trace.
  destruct (dial dir history (URL p)); [eexists; reflexivity|].
  destruct (defer_Close _ _) as [r issued]. eexists; reflexivity.
Qed.

Lemma getGroups_dials (p : Provider) (userdn : string) (history : list Event) :
  starts_with_dial p (trace (getGroups dir p userdn history)).
Proof.
  unfold starts_with_dial, getGroups, bindIO, DialURL, trace.
  destruct (dial dir history (URL p)); [eexists; reflexivity|].
  destruct (defer_Close _ _) as [r issued]. eexists; reflexivity.
Qed.

(** [Authenticate], step by step: the value and the trace of each step
    decide where the run stops. *)
Lemma Authenticate_steps (p : Provider) (username password : string)
  (history : list Event) :
  Authenticate NewClaims dir p username password history =
  let r1 := getDN dir p username history in
  match value r1 with
  | (_, Some e) => (Returns (None, Some e), trace r1)
  | (dn, None) =>
    let r2 := validatePassword dir p dn password (history ++ trace r1) in
    match value r2 with
    | Some e => (Returns (None, Some e), trace r1 ++ trace r2)
    | None =>
      let r3 := getGroups dir p dn ((history ++ trace r1) ++ trace r2) in
      match value r3 with
      | (_, Some e) => (Returns (None, Some e), trace r1 ++ trace r2 ++ trace r3)
      | (groups, None) =>
        (claims NewClaims p username groups, trace r1 ++ trace r2 ++ trace r3)
      end
    end
  end.
Proof.
  unfold Authenticate, bindIO, value, trace. cbn zeta.
  destruct (getDN dir p username history) as [[dn [e|]] t1]; cbn [fst snd ret].
  - now rewrite app_nil_r.
  - destruct (validatePassword dir p dn password (history ++ t1)) as [[e|] t2];
      cbn [fst snd ret].
    + now rewrite app_nil_r.
    + destruct (getGroups dir p dn ((history ++ t1) ++ t2)) as [[groups [e|]] t3];
        cbn [fst snd ret]; now rewrite app_nil_r.
Qed.

(** [Refresh], step by step. *)
Lemma Refresh_steps (p : Provider) (presented : Claims) (history : list Event) :
  Refresh NewClaims dir p (Some presented) history =
  let username := UserID (corev2.Provider presented) in
  let r1 := getDN dir p username history in
  match value r1 with
  | (_, Some e) => (Returns (None, Some e), trace r1)
  | (dn, None) =>
    let r2 := getGroups dir p dn (history ++ trace r1) in
    match value r2 with
    | (_, Some e) => (Returns (None, Some e), trace r1 ++ trace r2)
    | (groups, None) => (claims NewClaims p username groups, trace r1 ++ trace r2)
    end
  end.
Proof.
  unfold Refresh, bindIO, value, trace. cbn zeta.
  destruct (getDN dir p (UserID (corev2.Provider presented)) history)
    as [[dn [e|]] t1]; cbn [fst snd ret].
  - now rewrite app_nil_r.
  - destruct (getGroups dir p dn (history ++ t1)) as [[groups [e|]] t2];
      cbn [fst snd ret]; now rewrite app_nil_r.
Qed.

(** C3.  [Authenticate] runs [getDN], then [validatePassword], then
    [getGroups], then the claims builder.  The first step that returns an
    error ends the run: that error is returned with nil claims and the
    trace holds the events of the steps up to it and of no later step.
    The run returns claims with a nil error only when all four steps
    succeeded.  Each directory step starts with a dial, so a step that had
    run would show in the trace. *)
Theorem Authenticate_in_order_first_error (p : Provider)
  (username password : string) (history : list Event) :
  let r1 := getDN dir p username history in
  let r2 dn := validatePassword dir p dn password (history ++ trace r1) in
  let r3 dn := getGroups dir p dn ((history ++ trace r1) ++ trace (r2 dn)) in
  let run := Authenticate NewClaims dir p username password history in
  (forall dn e,
     value r1 = (dn, Some e) ->
     run = (Returns (None, Some e), trace r1)) /\
  (forall dn e,
     value r1 = (dn, None) -> value (r2 dn) = Some e ->
     run = (Returns (None, Some e), trace r1 ++ trace (r2 dn))) /\
  (forall dn groups e,
     value r1 = (dn, None) -> value (r2 dn) = None ->
     value (r3 dn) = (groups, Some e) ->
     run = (Returns (None, Some e), trace r1 ++ trace (r2 dn) ++ trace (r3 dn))) /\
  (forall dn groups,
     value r1 = (dn, None) -> value (r2 dn) = None ->
     value (r3 dn) = (groups, None) ->
     run = (claims NewClaims p username groups,
            trace r1 ++ trace (r2 dn) ++ trace (r3 dn))) /\
  (forall c,
     authentication.succeeds_with run c ->
     exists dn groups,
       value r1 = (dn, None) /\ value (r2 dn) = None /\
       value (r3 dn) = (groups, None) /\
       claims NewClaims p username groups = Returns (Some c, None)) /\
  (starts_with_dial p (trace r1) /\
   forall dn,
     starts_with_dial p (trace (r2 dn)) /\ starts_with_dial p (trace (r3 dn))).
Proof.
  intros r1 r2 r3 run.
  assert (Hsteps := Authenticate_steps p username password history).
  cbn zeta in Hsteps. subst run r3 r2 r1. cbn beta.
  split; [|split; [|split; [|split; [|split]]]].
  6: { split; [apply getDN_dials|].
       intros dn. split; [apply validatePassword_dials | apply getGroups_dials]. }
  - intros dn e H1. now rewrite Hsteps, H1.
  - intros dn e H1 H2. now rewrite Hsteps, H1, H2.
  - intros dn groups e H1 H2 H3. now rewrite Hsteps, H1, H2, H3.
  - intros dn groups H1 H2 H3. now rewrite Hsteps, H1, H2, H3.
  - unfold authentication.succeeds_with. intros c H. rewrite Hsteps in H.
    destruct (value (getDN dir p username history)) as [dn [e|]] eqn:H1;
      [discriminate|].
    destruct (value (validatePassword dir p dn password _)) as [e|] eqn:H2;
      [discriminate|].
    destruct (value (getGroups dir p dn _)) as [groups [e|]] eqn:H3;
      [discriminate|].
    exists dn, groups. auto.
Qed.

(** C5, as the code has it.  [validatePassword] returns nil exactly when
    the bind as the user is reached and succeeds; when that bind is refused
    with an error, [validatePassword] returns that very error, and
    [Authenticate] hands it unchanged to its caller. *)
Theorem validatePassword_bind_error_verbatim (p : Provider)
  (username dn password : string) (history : list Event) :
  let resolved := getDN dir p username history in
  let at_bind := history ++ trace resolved in
  (value (validatePassword dir p dn password at_bind) = None <->
   user_bind_answers dir p dn password at_bind None) /\
  (forall e,
     user_bind_answers dir p dn password at_bind (Some e) ->
     value (validatePassword dir p dn password at_bind) = Some e) /\
  (forall e,
     value resolved = (dn, None) ->
     user_bind_answers dir p dn password at_bind (Some e) ->
     value (Authenticate NewClaims dir p username password history) =
       Returns (None, Some e)).
Proof.
  intros resolved at_bind. subst at_bind resolved.
  split; [apply validatePassword_ok_iff|].
  split; [intros e; apply validatePassword_bind_error|].
  intros e Hdn Hbind. apply validatePassword_bind_error in Hbind.
  rewrite Authenticate_steps. cbn zeta. now rewrite Hdn, Hbind.
Qed.

(** Every bind that [getDN] issues uses the service account. *)
Lemma getDN_binds_as_service (p : Provider) (username : string)
  (history : list Event) :
  Forall (is_service_bind p) (trace (getDN dir p username history)).
Proof.
  unfold getDN. run_io.
  on_dial; [repeat (constructor; simpl; auto)|].
  destruct (StartTLS p); run_io;
    [on_tls; [repeat (constructor; simpl; auto)|] |];
    (on_bind; [repeat (constructor; simpl; auto)|]);
    (on_search; [|repeat (constructor; simpl; auto)]);
    destruct (negb (length (Entries s) =? 1));
    repeat (constructor; simpl; auto).
Qed.

(** Every bind that [getGroups] issues uses the service account. *)
Lemma getGroups_binds_as_service (p : Provider) (userdn : string)
  (history : list Event) :
  Forall (is_service_bind p) (trace (getGroups dir p userdn history)).
Proof.
  unfold getGroups. run_io.
  on_dial; [repeat (constructor; simpl; auto)|].
  destruct (StartTLS p); run_io;
    [on_tls; [repeat (constructor; simpl; auto)|] |];
    (on_bind; [repeat (constructor; simpl; auto)|]);
    on_search; repeat (constructor; simpl; auto).
Qed.

(** [getDN] and [getGroups] do not depend on how the directory answers
    binds other than that of the service account. *)
Lemma getDN_agree (p : Provider) (dir' : Directory) (username : string)
  (history : list Event) :
  agree_up_to_user_binds p dir dir' ->
  getDN dir p username history = getDN dir' p username history.
Proof.
  intros (Hd & Ht & Hs & Hb). unfold getDN. run_io.
  rewrite Hd. on_dial; [reflexivity|].
  destruct (StartTLS p); run_io;
    [rewrite Ht; on_tls; [reflexivity|] |];
    rewrite Hb; (on_bind; [reflexivity|]);
    rewrite Hs; reflexivity.
Qed.

Lemma getGroups_agree (p : Provider) (dir' : Directory) (userdn : string)
  (history : list Event) :
  agree_up_to_user_binds p dir dir' ->
  getGroups dir p userdn history = getGroups dir' p userdn history.
Proof.
  intros (Hd & Ht & Hs & Hb). unfold getGroups. run_io.
  rewrite Hd. on_dial; [reflexivity|].
  destruct (StartTLS p); run_io;
    [rewrite Ht; on_tls; [reflexivity|] |];
    rewrite Hb; (on_bind; [reflexivity|]);
    rewrite Hs; reflexivity.
Qed.

(** C6.  [Refresh] runs [getDN] and [getGroups] for the user identifier of
    the presented claims and then the claims builder, and nothing else:
    every bind in its trace is the bind of the service account, so the
    password of the user is verified nowhere, and a directory that answers
    binds as the user differently (the password has changed) yields the
    same result. *)
Theorem Refresh_never_verifies_password (p : Provider) (presented : Claims)
  (history : list Event) :
  let username := UserID (corev2.Provider presented) in
  let r1 := getDN dir p username history in
  let r2 dn := getGroups dir p dn (history ++ trace r1) in
  let run := Refresh NewClaims dir p (Some presented) history in
  (forall dn e,
     value r1 = (dn, Some e) ->
     run = (Returns (None, Some e), trace r1)) /\
  (forall dn groups e,
     value r1 = (dn, None) -> value (r2 dn) = (groups, Some e) ->
     run = (Returns (None, Some e), trace r1 ++ trace (r2 dn))) /\
  (forall dn groups,
     value r1 = (dn, None) -> value (r2 dn) = (groups, None) ->
     run = (claims NewClaims p username groups, trace r1 ++ trace (r2 dn))) /\
  Forall (is_service_bind p) (trace run) /\
  (forall dir',
     agree_up_to_user_binds p dir dir' ->
     Refresh NewClaims dir' p (Some presented) history = run).
Proof.
  intros username r1 r2 run.
  assert (Hsteps := Refresh_steps p presented history).
  cbn zeta in Hsteps. subst run r2 r1 username. cbn beta.
  split; [|split; [|split; [|split]]].
  - intros dn e H1. now rewrite Hsteps, H1.
  - intros dn groups e H1 H2. now rewrite Hsteps, H1, H2.
  - intros dn groups H1 H2. now rewrite Hsteps, H1, H2.
  - rewrite Hsteps.
    pose proof (getDN_binds_as_service p (UserID (corev2.Provider presented))
                  history) as F1.
    destruct (value (getDN dir p (UserID (corev2.Provider presented)) history))
      as [dn [e|]]; [exact F1|].
    pose proof (getGroups_binds_as_service p dn
                  (history ++ trace (getDN dir p
                     (UserID (corev2.Provider presented)) history))) as F2.
    destruct (value (getGroups dir p dn _)) as [groups [e|]];
      cbn [trace snd]; apply Forall_app; split; assumption.
  - intros dir' Hagree. unfold Refresh, bindIO.
    rewrite (getDN_agree p dir' _ history Hagree).
    destruct (getDN dir' p (UserID (corev2.Provider presented)) history)
      as [[dn [e|]] t1]; [reflexivity|].
    now rewrite (getGroups_agree p dir' dn (history ++ t1) Hagree).
Qed.

End DirectoryProperties.

(** ** Claims builders and the two providers *)

Section ProviderProperties.

Import corev2 goldap.

Variable NewClaims : jwt.NewClaimsFn.


(** What either claims builder does with the two results of
    [jwt.NewClaims]. *)
Lemma ldap_claims_cases (p : ldap.Provider) (username : string)
  (groups : list string) :
  let user := {| Username := username; Groups := groups; Disabled := false |} in
  let attribution := {| ProviderID := ldap.Name p; UserID := username |} in
  (forall c err,
     NewClaims user = (Some c, err) ->
     ldap.claims NewClaims p username groups =
       Returns (Some (set_Provider c attribution), err)) /\
  (forall err,
     NewClaims user = (None, err) ->
     ldap.claims NewClaims p username groups = Panics nil_dereference).
Proof.
  cbn zeta. unfold ldap.claims.
  split; intros; match goal with H : NewClaims _ = _ |- _ => now rewrite H end.
Qed.

Lemma allowall_claims_cases (p : allowall.Provider) (username : string) :
  let user := {| Username := username;
                 Groups := ["cluster-admins"%string];
                 Disabled := false |} in
  let attribution := {| ProviderID := allowall.Name p; UserID := username |} in
  (forall c err,
     NewClaims user = (Some c, err) ->
     allowall.claims NewClaims p username =
       Returns (Some (set_Provider c attribution), err)) /\
  (forall err,
     NewClaims user = (None, err) ->
     allowall.claims NewClaims p username = Panics nil_dereference).
Proof.
  cbn zeta. unfold allowall.claims.
  split; intros; match goal with H : NewClaims _ = _ |- _ => now rewrite H end.
Qed.

(** C10.  Both claims builders assign the provider attribution on the
    claims value of [jwt.NewClaims] whatever error came with it: when that
    value is non-nil the builder returns it, attribution set, together
    with the error, also when the error is non-nil; when it is nil the
    builder panics on the assignment.  So a builder returns, rather than
    panics, exactly when [jwt.NewClaims] returned a non-nil claims value. *)
Theorem claims_builders_assign_before_error_check :
  (forall (p : ldap.Provider) username groups,
     let user := {| Username := username; Groups := groups; Disabled := false |} in
     let attribution := {| ProviderID := ldap.Name p; UserID := username |} in
     (forall c err,
        NewClaims user = (Some c, err) ->
        ldap.claims NewClaims p username groups =
          Returns (Some (set_Provider c attribution), err)) /\
     (forall err,
        NewClaims user = (None, err) ->
        ldap.claims NewClaims p username groups = Panics nil_dereference) /\
     (authentication.returns (ldap.claims NewClaims p username groups) <->
      exists c, fst (NewClaims user) = Some c)) /\
  (forall (p : allowall.Provider) username,
     let user := {| Username := username;
                    Groups := ["cluster-admins"%string];
                    Disabled := false |} in
     let attribution := {| ProviderID := allowall.Name p; UserID := username |} in
     (forall c err,
        NewClaims user = (Some c, err) ->
        allowall.claims NewClaims p username =
          Returns (Some (set_Provider c attribution), err)) /\
     (forall err,
        NewClaims user = (None, err) ->
        allowall.claims NewClaims p username = Panics nil_dereference) /\
     (authentication.returns (allowall.claims NewClaims p username) <->
      exists c, fst (NewClaims user) = Some c)).
Proof.
  split.
  - intros p username groups user attribution.
    destruct (ldap_claims_cases p username groups) as [Hsome Hnone].
    fold user attribution in Hsome, Hnone.
    split; [exact Hsome|]. split; [exact Hnone|].
    unfold authentication.returns. destruct (NewClaims user) as [[c|] err] eqn:E; cbn [fst].
    + rewrite (Hsome c err eq_refl). split; eauto.
    + rewrite (Hnone err eq_refl).
      split; intros [x Hx]; discriminate Hx.
  - intros p username user attribution.
    destruct (allowall_claims_cases p username) as [Hsome Hnone].
    fold user attribution in Hsome, Hnone.
    split; [exact Hsome|]. split; [exact Hnone|].
    unfold authentication.returns. destruct (NewClaims user) as [[c|] err] eqn:E; cbn [fst].
    + rewrite (Hsome c err eq_refl). split; eauto.
    + rewrite (Hnone err eq_refl).
      split; intros [x Hx]; discriminate Hx.
Qed.


(** Claims returned with a nil error by a builder are issued for the
    username the builder was given. *)
Lemma ldap_claims_issued (p : ldap.Provider) (username : string)
  (groups : list string) (c : Claims) :
  ldap.claims NewClaims p username groups = Returns (Some c, None) ->
  authentication.issued_for NewClaims (ldap.Name p) username c.
Proof.
  unfold ldap.claims, authentication.issued_for.
  destruct (NewClaims _) as [[minted|] err] eqn:E; [|discriminate].
  intros H. injection H as Hc Herr. subst c err.
  repeat split.
  eexists _, minted. repeat split; [| |exact E]; reflexivity.
Qed.

Lemma allowall_claims_issued (p : allowall.Provider) (username : string)
  (c : Claims) :
  allowall.claims NewClaims p username = Returns (Some c, None) ->
  authentication.issued_for NewClaims (allowall.Name p) username c.
Proof.
  unfold allowall.claims, authentication.issued_for.
  destruct (NewClaims _) as [[minted|] err] eqn:E; [|discriminate].
  intros H. injection H as Hc Herr. subst c err.
  repeat split.
  eexists _, minted. repeat split; [| |exact E]; reflexivity.
Qed.

(** C7.  For both providers, the claims of every successful [Authenticate]
    and of every successful [Refresh] name the provider by its [Name], name
    the authenticated username as the user identifier, and were minted for
    an identity whose disabled flag is false. *)
Theorem providers_keep_claims_invariant (dir : Directory) :
  authentication.claims_invariant (allowall.provider NewClaims) NewClaims /\
  authentication.claims_invariant (ldap.provider NewClaims dir) NewClaims.
Proof.
  unfold authentication.claims_invariant, authentication.succeeds_with.
  split; intros p history; cbn [authentication.Authenticate authentication.Refresh
                               authentication.Name allowall.provider ldap.provider].
  - split; intros; apply allowall_claims_issued; assumption.
  - split.
    + intros username password c H. rewrite Authenticate_steps in H. cbn zeta in H.
      destruct (value (ldap.getDN dir p username history)) as [dn [e|]];
        [discriminate|].
      destruct (value (ldap.validatePassword dir p dn password _)) as [e|];
        [discriminate|].
      destruct (value (ldap.getGroups dir p dn _)) as [groups [e|]];
        [discriminate|].
      apply (ldap_claims_issued p username groups c H).
    + intros presented c H. rewrite Refresh_steps in H. cbn zeta in H.
      destruct (value (ldap.getDN dir p _ history)) as [dn [e|]];
        [discriminate|].
      destruct (value (ldap.getGroups dir p dn _)) as [groups [e|]];
        [discriminate|].
      apply (ldap_claims_issued p _ groups c H).
Qed.

(** The allow-all [Authenticate] in terms of [jwt.NewClaims]: the same
    result for any two passwords, no call to any directory, and success
    exactly when [jwt.NewClaims] succeeds for the identity of the given
    username with the single group [cluster-admins] and the disabled flag
    false; the claims then name the provider [allowall] and the username. *)
Lemma allowall_Authenticate_result (p : allowall.Provider)
  (username password password' : string) (history : list Event) :
  let user := {| Username := username;
                 Groups := ["cluster-admins"%string];
                 Disabled := false |} in
  let run := allowall.Authenticate NewClaims p username password history in
  allowall.Authenticate NewClaims p username password' history = run /\
  trace run = [] /\
  (forall c,
     authentication.succeeds_with run c <->
     exists minted,
       NewClaims user = (Some minted, None) /\
       c = set_Provider minted
             {| ProviderID := "allowall"; UserID := username |}) /\
  (forall c,
     authentication.succeeds_with run c ->
     ProviderID (corev2.Provider c) = "allowall"%string /\
     UserID (corev2.Provider c) = username /\
     (jwt.carries_identity NewClaims ->
      ClaimGroups c = ["cluster-admins"%string])).
Proof.
  intros user run. subst run.
  unfold authentication.succeeds_with, allowall.Authenticate, value, trace, ret.
  cbn [fst snd].
  assert (Hiff : forall c,
             allowall.claims NewClaims p username = Returns (Some c, None) <->
             exists minted,
               NewClaims user = (Some minted, None) /\
               c = set_Provider minted
                     {| ProviderID := "allowall"; UserID := username |}).
  { intros c. unfold allowall.claims. fold user.
    destruct (NewClaims user) as [[minted|] err]; split.
    - intros H. injection H as Hc Herr. subst. now exists minted.
    - intros (m & Hm & ->). injection Hm as -> ->. reflexivity.
    - discriminate.
    - intros (m & Hm & _). discriminate Hm. }
  split; [reflexivity|]. split; [reflexivity|]. split; [exact Hiff|].
  intros c H. apply Hiff in H. destruct H as (minted & Hm & ->).
  repeat split. intros Hcarry. apply Hcarry in Hm. cbn. apply Hm.
Qed.

(** C8.  For every username and every two passwords the allow-all
    [Authenticate] returns the same result, the password being consulted
    nowhere, and asks nothing of any directory.  With an issuer whose
    signing does not fail it succeeds for every username and password,
    and the claims it returns have the groups [cluster-admins], the
    provider identifier [allowall] and the username as user identifier. *)
Theorem allowall_Authenticate_ignores_password (p : allowall.Provider)
  (username password password' : string) (history : list Event) :
  let run := allowall.Authenticate NewClaims p username password history in
  allowall.Authenticate NewClaims p username password' history = run /\
  trace run = [] /\
  (jwt.issues NewClaims ->
   exists c,
     authentication.succeeds_with run c /\
     ClaimGroups c = ["cluster-admins"%string] /\
     ProviderID (corev2.Provider c) = "allowall"%string /\
     UserID (corev2.Provider c) = username /\
     Subject c = username).
Proof.
  intros run. subst run.
  destruct (allowall_Authenticate_result p username password password' history)
    as (Hsame & Htrace & Hiff & _).
  cbn zeta in Hiff.
  split; [exact Hsame|]. split; [exact Htrace|].
  intros Hissues.
  destruct (Hissues {| Username := username;
                       Groups := ["cluster-admins"%string];
                       Disabled := false |}) as (minted & Hm & Hsubject & Hgroups).
  exists (set_Provider minted {| ProviderID := "allowall"; UserID := username |}).
  split; [apply Hiff; now exists minted|].
  cbn. repeat split; assumption.
Qed.

End ProviderProperties.

(** * Concrete runs *)

Section Runs.

Import corev2 goldap reach scenario.

Local Open Scope string_scope.

(** The single entry [bob] resolves to its DN; the two entries of [twin]
    and the absence of [nobody] give the same error. *)
Lemma getDN_exactly_one_run :
  value (ldap.getDN (directory "s3cret") example_provider "bob" []) = (bob_dn, None) /\
  value (ldap.getDN (directory "s3cret") example_provider "twin" []) =
    (EmptyString, Some ldap.ambiguous_or_missing) /\
  value (ldap.getDN (directory "s3cret") example_provider "nobody" []) =
    (EmptyString, Some ldap.ambiguous_or_missing).
Proof.
  split; [|split].
  - apply (proj1 (getDN_exactly_one (directory "s3cret") example_provider "bob" [])).
    exists {| Entries := [person bob_dn] |}, (person bob_dn).
    repeat split; intros; reflexivity.
  - apply (proj2 (getDN_exactly_one (directory "s3cret") example_provider "twin" [])
             (answer_search (ldap.getDN_searchRequest example_provider "twin"))).
    + repeat split; intros; reflexivity.
    + vm_compute. discriminate.
  - apply (proj2 (getDN_exactly_one (directory "s3cret") example_provider "nobody" [])
             (answer_search (ldap.getDN_searchRequest example_provider "nobody"))).
    + repeat split; intros; reflexivity.
    + vm_compute. discriminate.
Defined.

(** [bob] is a member of two groups; an unknown DN is a member of none. *)
Lemma getGroups_every_match_run :
  value (ldap.getGroups (directory "s3cret") example_provider bob_dn []) =
    (["ops"%string; "dev"%string], None) /\
  value (ldap.getGroups (directory "s3cret") example_provider "uid=eve" []) =
    ([], None).
Proof.
  split.
  - apply (getGroups_every_match (directory "s3cret") example_provider bob_dn []
             {| Entries := [group "ops"; group "dev"] |}).
    repeat split; intros; reflexivity.
  - apply (getGroups_every_match (directory "s3cret") example_provider "uid=eve" []
             {| Entries := [] |}).
    + repeat split; intros; reflexivity.
    + reflexivity.
Defined.

(** A wrong password stops [Authenticate] at the second step: no group
    search follows the refused bind. *)
Lemma Authenticate_in_order_run :
  ldap.Authenticate mint (directory "s3cret") example_provider "bob" "wrong" [] =
    (Returns (None, Some invalid_credentials),
     [EvDialURL "ldap://directory.example.org:389" 2000000000;
      EvStartTLS true;
      EvBind "cn=reader,dc=example,dc=org" "reader-secret";
      EvSearch (ldap.getDN_searchRequest example_provider "bob");
      EvClose;
      EvDialURL "ldap://directory.example.org:389" 2000000000;
      EvStartTLS true;
      EvBind bob_dn "wrong";
      EvClose]) /\
  value (ldap.Authenticate mint (directory "s3cret") example_provider "bob" "s3cret" []) =
    ldap.claims mint example_provider "bob" ["ops"%string; "dev"%string].
Proof.
  split.
  - apply (proj1 (proj2 (Authenticate_in_order_first_error mint
                           (directory "s3cret") example_provider "bob" "wrong" []))
             bob_dn invalid_credentials); reflexivity.
  - rewrite (proj1 (proj2 (proj2 (proj2 (Authenticate_in_order_first_error mint
                           (directory "s3cret") example_provider "bob" "s3cret" []))))
             bob_dn ["ops"%string; "dev"%string]); reflexivity.
Defined.


(** Two causes of a refused bind as the user reach the caller of
    [Authenticate] as two different errors. *)
Lemma bind_failures_are_distinguished :
  user_bind_answers (directory_refusing invalid_credentials) example_provider
    bob_dn "guess"
    (trace (ldap.getDN (directory_refusing invalid_credentials) example_provider "bob" []))
    (Some invalid_credentials) /\
  user_bind_answers (directory_refusing network_error) example_provider
    bob_dn "guess"
    (trace (ldap.getDN (directory_refusing network_error) example_provider "bob" []))
    (Some network_error) /\
  value (ldap.Authenticate mint (directory_refusing invalid_credentials)
           example_provider "bob" "guess" []) =
    Returns (None, Some invalid_credentials) /\
  value (ldap.Authenticate mint (directory_refusing network_error)
           example_provider "bob" "guess" []) =
    Returns (None, Some network_error) /\
  value (ldap.Authenticate mint (directory_refusing invalid_credentials)
           example_provider "bob" "guess" []) <>
  value (ldap.Authenticate mint (directory_refusing network_error)
           example_provider "bob" "guess" []).
Proof.
  split; [repeat split; intros; reflexivity|].
  split; [repeat split; intros; reflexivity|].
  split; [reflexivity|]. split; [reflexivity|].
  vm_compute. discriminate.
Defined.

(** A bind refused for a network error is reported as that network error. *)
Lemma validatePassword_bind_error_verbatim_run :
  value (ldap.Authenticate mint (directory_refusing network_error)
           example_provider "bob" "guess" []) =
    Returns (None, Some network_error).
Proof.
  apply (proj2 (proj2 (validatePassword_bind_error_verbatim mint
                         (directory_refusing network_error) example_provider
                         "bob" bob_dn "guess" []))
           network_error).
  - reflexivity.
  - split; [split; intros; reflexivity | reflexivity].
Defined.

(** The password of [bob] has changed from [old] to [new]: [Authenticate]
    with the old password is refused, and [Refresh] of claims issued
    earlier still succeeds, with the groups read again. *)
Lemma Refresh_never_verifies_password_run :
  let presented :=
    set_Provider zero_Claims {| ProviderID := "ldap"; UserID := "bob" |} in
  value (ldap.Authenticate mint (directory "new") example_provider "bob" "old" []) =
    Returns (None, Some invalid_credentials) /\
  ldap.Refresh mint (directory "new") example_provider (Some presented) [] =
    ldap.Refresh mint (directory "old") example_provider (Some presented) [] /\
  value (ldap.Refresh mint (directory "new") example_provider (Some presented) []) =
    ldap.claims mint example_provider "bob" ["ops"%string; "dev"%string].
Proof.
  intros presented.
  pose proof (Refresh_never_verifies_password mint (directory "old")
                example_provider presented []) as H.
  cbn zeta in H. destruct H as (_ & _ & Hok & _ & Hsame).
  assert (Hagree : agree_up_to_user_binds example_provider
                     (directory "old") (directory "new"))
    by (repeat split; intros; reflexivity).
  split; [reflexivity|]. split; [exact (Hsame _ Hagree)|].
  rewrite (Hsame _ Hagree).
  rewrite (Hok bob_dn ["ops"%string; "dev"%string]); reflexivity.
Defined.

(** The claims of a successful directory [Authenticate] and of a
    successful allow-all [Refresh] are issued for the authenticated user. *)
Lemma providers_keep_claims_invariant_run :
  authentication.issued_for mint "ldap" "bob"
    {| Subject := "bob"; ClaimGroups := ["ops"%string; "dev"%string];
       Provider := {| ProviderID := "ldap"; UserID := "bob" |};
       IssuedAt := 1000; ExpiresAt := 1900 |} /\
  authentication.issued_for mint "allowall" "alice"
    {| Subject := "alice"; ClaimGroups := ["cluster-admins"%string];
       Provider := {| ProviderID := "allowall"; UserID := "alice" |};
       IssuedAt := 1000; ExpiresAt := 1900 |}.
Proof.
  destruct (providers_keep_claims_invariant mint (directory "s3cret")) as [Hall Hldap].
  split.
  - apply (proj1 (Hldap example_provider []) "bob" "s3cret"). reflexivity.
  - apply (proj2 (Hall admin [])
             (set_Provider zero_Claims {| ProviderID := "ldap"; UserID := "alice" |})).
    reflexivity.
Defined.

(** The issuer [mint] signs without fail, and [bob] is let in whatever
    the password, as a member of [cluster-admins]. *)
Lemma allowall_Authenticate_ignores_password_run :
  jwt.issues mint /\
  allowall.Authenticate mint admin "bob" "something else" [] =
    allowall.Authenticate mint admin "bob" "anything" [] /\
  exists c,
    authentication.succeeds_with
      (allowall.Authenticate mint admin "bob" "anything" []) c /\
    ClaimGroups c = ["cluster-admins"%string] /\
    ProviderID (corev2.Provider c) = "allowall"%string /\
    UserID (corev2.Provider c) = "bob"%string /\
    Subject c = "bob"%string.
Proof.
  assert (Hissues : jwt.issues mint)
    by (intros user; eexists; repeat split).
  pose proof (allowall_Authenticate_ignores_password mint admin "bob"
                "anything" "something else" []) as H.
  cbn zeta in H. destruct H as (Hsame & _ & Hsucceeds).
  split; [exact Hissues|]. split; [exact Hsame|].
  exact (Hsucceeds Hissues).
Defined.

(** An issuer that fails with non-nil claims gets them back attributed,
    with its error; an issuer that fails with nil claims makes the builder
    panic. *)
Lemma claims_builders_assign_before_error_check_run :
  ldap.claims mint_failing example_provider "bob" ["ops"%string] =
    Returns (Some (set_Provider zero_Claims
                     {| ProviderID := "ldap"; UserID := "bob" |}),
             Some signing_failed) /\
  allowall.claims mint_failing_nil admin "bob" = Panics nil_dereference.
Proof.
  split.
  - apply (proj1 (proj1 (claims_builders_assign_before_error_check mint_failing)
                    example_provider "bob" ["ops"%string])).
    reflexivity.
  - apply (proj1 (proj2 (proj2 (claims_builders_assign_before_error_check
                                  mint_failing_nil) admin "bob"))
             (Some signing_failed)).
    reflexivity.
Defined.

End Runs.

(** * Further properties of the providers *)

(** Rewrites with the recorded answers of the directory while the calls of
    a trace are judged against the connection discipline. *)
Ltac judge :=
  unfold protocol.disciplined;
  rewrite ?app_nil_r in *;
  repeat (cbn [protocol.run protocol.step app implb andb fst snd];
          rewrite ?String.eqb_refl, ?Z.eqb_refl;
          try match goal with
              | H : ?x = _ |- context [?x] => rewrite H
              end);
  try reflexivity.

Section DirectoryDiscipline.

Import corev2 goldap ldap reach protocol provenance.

Variable NewClaims : jwt.NewClaimsFn.
Variable dir : Directory.

Lemma run_app (p : Provider) (issued issued' : list Event) :
  forall c history,
    run dir p c history (issued ++ issued') =
    match run dir p c history issued with
    | Some c' => run dir p c' (history ++ issued) issued'
    | None => None
    end.
Proof.
  induction issued as [|e issued IH]; intros c history; simpl.
  - now rewrite app_nil_r.
  - destruct (step dir p c history e) as [c'|]; [|reflexivity].
    rewrite IH, <- app_assoc. reflexivity.
Qed.

Lemma disciplined_app (p : Provider) (history issued issued' : list Event) :
  disciplined dir p history issued ->
  disciplined dir p (history ++ issued) issued' ->
  disciplined dir p history (issued ++ issued').
Proof.
  unfold disciplined. intros H1 H2. now rewrite run_app, H1.
Qed.

Lemma getDN_disciplined (p : Provider) (username : string) (history : list Event) :
  disciplined dir p history (trace (getDN dir p username history)).
Proof.
  unfold getDN. run_io.
  on_dial; [judge|].
  destruct (StartTLS p) eqn:Hflag; run_io;
    [on_tls; [judge|] |];
    (on_bind; [judge|]);
    (on_search; [|judge]);
    destruct (negb (length (Entries s) =? 1)); judge.
Qed.

Lemma validatePassword_disciplined (p : Provider) (dn password : string)
  (history : list Event) :
  disciplined dir p history (trace (validatePassword dir p dn password history)).
Proof.
  unfold validatePassword. run_io.
  on_dial; [judge|].
  destruct (StartTLS p) eqn:Hflag; run_io;
    [on_tls; [judge|] |];
    on_bind; judge.
Qed.

Lemma getGroups_disciplined (p : Provider) (userdn : string) (history : list Event) :
  disciplined dir p history (trace (getGroups dir p userdn history)).
Proof.
  unfold getGroups. run_io.
  on_dial; [judge|].
  destruct (StartTLS p) eqn:Hflag; run_io;
    [on_tls; [judge|] |];
    (on_bind; [judge|]);
    on_search; judge.
Qed.


(** X1.  The calls that [getDN], [validatePassword], [getGroups],
    [Authenticate] and [Refresh] issue keep the connection discipline
    and leave no connection open, whatever the directory answers: one
    connection at a time, dialled with the timeout; the TLS upgrade, when
    configured, before any bind; no search before a successful bind; after
    a failed call nothing but the close; every connection closed. *)
Theorem directory_calls_keep_discipline (p : Provider)
  (username dn password : string) (presented : option Claims)
  (history : list Event) :
  disciplined dir p history (trace (getDN dir p username history)) /\
  disciplined dir p history (trace (validatePassword dir p dn password history)) /\
  disciplined dir p history (trace (getGroups dir p dn history)) /\
  disciplined dir p history
    (trace (Authenticate NewClaims dir p username password history)) /\
  disciplined dir p history (trace (Refresh NewClaims dir p presented history)).
Proof.
  split; [apply getDN_disciplined|].
  split; [apply validatePassword_disciplined|].
  split; [apply getGroups_disciplined|].
  split.
  - rewrite Authenticate_steps. cbn zeta.
    pose proof (getDN_disciplined p username history) as D1.
    destruct (value (getDN dir p username history)) as [dn1 [e|]]; [exact D1|].
    pose proof (validatePassword_disciplined p dn1 password
                  (history ++ trace (getDN dir p username history))) as D2.
    destruct (value (validatePassword dir p dn1 password _)) as [e|];
      [apply disciplined_app; assumption|].
    pose proof (getGroups_disciplined p dn1
                  ((history ++ trace (getDN dir p username history)) ++
                   trace (validatePassword dir p dn1 password
                            (history ++ trace (getDN dir p username history)))))
      as D3.
    destruct (value (getGroups dir p dn1 _)) as [groups [e|]];
      cbn [trace snd] in *;
      apply disciplined_app; try assumption;
      apply disciplined_app; assumption.
  - destruct presented as [presented|]; [|reflexivity].
    rewrite Refresh_steps. cbn zeta.
    pose proof (getDN_disciplined p (UserID (corev2.Provider presented)) history)
      as D1.
    destruct (value (getDN dir p _ history)) as [dn1 [e|]]; [exact D1|].
    pose proof (getGroups_disciplined p dn1
                  (history ++ trace (getDN dir p
                     (UserID (corev2.Provider presented)) history))) as D2.
    destruct (value (getGroups dir p dn1 _)) as [groups [e|]];
      cbn [trace snd] in *; apply disciplined_app; assumption.
Qed.

(** Each directory step dials once. *)
Lemma dials_app (issued issued' : list Event) :
  dials (issued ++ issued') = dials issued + dials issued'.
Proof. unfold dials. now rewrite filter_app, length_app. Qed.

Lemma getDN_dials_once (p : Provider) (username : string) (history : list Event) :
  dials (trace (getDN dir p username history)) = 1.
Proof.
  unfold getDN. run_io.
  on_dial; [reflexivity|].
  destruct (StartTLS p); run_io;
    [on_tls; [reflexivity|] |];
    (on_bind; [reflexivity|]);
    (on_search; [|reflexivity]);
    destruct (negb (length (Entries s) =? 1)); reflexivity.
Qed.

Lemma validatePassword_dials_once (p : Provider) (dn password : string)
  (history : list Event) :
  dials (trace (validatePassword dir p dn password history)) = 1.
Proof.
  unfold validatePassword. run_io.
  on_dial; [reflexivity|].
  destruct (StartTLS p); run_io;
    [on_tls; [reflexivity|] |];
    on_bind; reflexivity.
Qed.

Lemma getGroups_dials_once (p : Provider) (userdn : string) (history : list Event) :
  dials (trace (getGroups dir p userdn history)) = 1.
Proof.
  unfold getGroups. run_io.
  on_dial; [reflexivity|].
  destruct (StartTLS p); run_io;
    [on_tls; [reflexivity|] |];
    (on_bind; [reflexivity|]);
    on_search; reflexivity.
Qed.

(** X2.  [Authenticate] dials the directory once per step it runs: at
    least once, at most three times, and three times whenever it returns
    claims with a nil error.  [Refresh] of non-nil claims dials once or
    twice, and twice whenever it returns claims with a nil error. *)
Theorem connections_per_call (p : Provider) (username password : string)
  (presented : Claims) (history : list Event) :
  let login := Authenticate NewClaims dir p username password history in
  let renewal := Refresh NewClaims dir p (Some presented) history in
  (1 <= dials (trace login) <= 3 /\
   forall c, authentication.succeeds_with login c -> dials (trace login) = 3) /\
  (1 <= dials (trace renewal) <= 2 /\
   forall c, authentication.succeeds_with renewal c -> dials (trace renewal) = 2).
Proof.
  cbn zeta. unfold authentication.succeeds_with. split.
  - rewrite Authenticate_steps. cbn zeta.
    pose proof (getDN_dials_once p username history) as D1.
    unfold trace, value in *.
    destruct (fst (getDN dir p username history)) as [dn [e|]];
      cbn [fst snd] in *.
    { rewrite D1. split; [lia | discriminate]. }
    pose proof (validatePassword_dials_once p dn password
                  (history ++ snd (getDN dir p username history))) as D2.
    unfold trace in D2.
    destruct (fst (validatePassword dir p dn password _)) as [e|];
      cbn [fst snd] in *.
    { rewrite dials_app, D1, D2. split; [lia | discriminate]. }
    pose proof (getGroups_dials_once p dn
                  ((history ++ snd (getDN dir p username history)) ++
                   snd (validatePassword dir p dn password
                          (history ++ snd (getDN dir p username history)))))
      as D3.
    unfold trace in D3.
    destruct (fst (getGroups dir p dn _)) as [groups [e|]];
      cbn [fst snd] in *;
      rewrite !dials_app, D1, D2, D3; split; try lia; intros; reflexivity.
  - rewrite Refresh_steps. cbn zeta.
    pose proof (getDN_dials_once p (UserID (corev2.Provider presented)) history)
      as D1.
    unfold trace, value in *.
    destruct (fst (getDN dir p _ history)) as [dn [e|]];
      cbn [fst snd] in *.
    { rewrite D1. split; [lia | discriminate]. }
    pose proof (getGroups_dials_once p dn
                  (history ++ snd (getDN dir p
                     (UserID (corev2.Provider presented)) history))) as D2.
    unfold trace in D2.
    destruct (fst (getGroups dir p dn _)) as [groups [e|]];
      cbn [fst snd] in *;
      rewrite !dials_app, D1, D2; split; try lia; intros; reflexivity.
Qed.


(** The calls of each directory step, one by one. *)
Lemma getDN_calls (p : Provider) (username : string) (history : list Event) :
  Forall (fun e => from_configuration p e \/
                   e = EvSearch (getDN_searchRequest p username))
    (trace (getDN dir p username history)).
Proof.
  unfold getDN. run_io.
  on_dial; [repeat (constructor; simpl; auto)|].
  destruct (StartTLS p) eqn:Hflag; run_io;
    [on_tls; [repeat (constructor; simpl; auto)|] |];
    (on_bind; [repeat (constructor; simpl; auto)|]);
    (on_search; [|repeat (constructor; simpl; auto)]);
    destruct (negb (length (Entries s) =? 1));
    repeat (constructor; simpl; auto).
Qed.

Lemma validatePassword_calls (p : Provider) (dn password : string)
  (history : list Event) :
  Forall (fun e => from_configuration p e \/ e = EvBind dn password)
    (trace (validatePassword dir p dn password history)).
Proof.
  unfold validatePassword. run_io.
  on_dial; [repeat (constructor; simpl; auto)|].
  destruct (StartTLS p) eqn:Hflag; run_io;
    [on_tls; [repeat (constructor; simpl; auto)|] |];
    on_bind; repeat (constructor; simpl; auto).
Qed.

Lemma getGroups_calls (p : Provider) (userdn : string) (history : list Event) :
  Forall (fun e => from_configuration p e \/
                   e = EvSearch (getGroups_searchRequest p userdn))
    (trace (getGroups dir p userdn history)).
Proof.
  unfold getGroups. run_io.
  on_dial; [repeat (constructor; simpl; auto)|].
  destruct (StartTLS p) eqn:Hflag; run_io;
    [on_tls; [repeat (constructor; simpl; auto)|] |];
    (on_bind; [repeat (constructor; simpl; auto)|]);
    on_search; repeat (constructor; simpl; auto).
Qed.

(** X3.  Every call [Authenticate] issues, of whatever kind, is built from
    the configuration of the provider alone (dial, TLS upgrade, bind of
    the service account, close), or is the search for the user, built
    from the configuration and the username, or, once [getDN] has
    resolved a DN, is the bind as that DN with the given password or the
    search for the groups of that DN.  So the password enters the bind as
    the resolved DN and no other call, search filters included, and no
    call at all when no DN was resolved. *)
Theorem Authenticate_sends_password_to_resolved_dn_only (p : Provider)
  (username password : string) (history : list Event) :
  Forall
    (login_call p username password
       (resolved_dn (value (getDN dir p username history))))
    (trace (Authenticate NewClaims dir p username password history)).
Proof.
  rewrite Authenticate_steps. cbn zeta.
  pose proof (getDN_calls p username history) as C1.
  destruct (value (getDN dir p username history)) as [dn [e|]];
    cbn [trace snd resolved_dn] in *.
  { eapply Forall_impl; [|exact C1]. unfold login_call. intuition. }
  assert (F1 : Forall (login_call p username password (Some dn))
                 (snd (getDN dir p username history))).
  { eapply Forall_impl; [|exact C1]. unfold login_call. intuition. }
  assert (F2 : forall h,
             Forall (login_call p username password (Some dn))
               (snd (validatePassword dir p dn password h))).
  { intros h. eapply Forall_impl; [|exact (validatePassword_calls p dn password h)].
    unfold login_call. intros a [H|H]; [auto|]. right. right. exists dn. auto. }
  assert (F3 : forall h,
             Forall (login_call p username password (Some dn))
               (snd (getGroups dir p dn h))).
  { intros h. eapply Forall_impl; [|exact (getGroups_calls p dn h)].
    unfold login_call. intros a [H|H]; [auto|]. right. right. exists dn. auto. }
  unfold trace, value in *.
  destruct (fst (validatePassword dir p dn password _)) as [e|];
    cbn [snd].
  { apply Forall_app. split; [exact F1 | apply F2]. }
  destruct (fst (getGroups dir p dn _)) as [groups [e|]]; cbn [snd];
    (apply Forall_app; split; [exact F1|]);
    (apply Forall_app; split; [apply F2 | apply F3]).
Qed.

(** The error of a directory step is an answer of the directory, or the
    error of [getDN] for a search that did not find exactly one entry. *)
Lemma getDN_error_source (p : Provider) (username : string)
  (history : list Event) (dn : string) (e : error) :
  value (getDN dir p username history) = (dn, Some e) ->
  dn = EmptyString /\ (from_directory dir e \/ e = ambiguous_or_missing).
Proof.
  unfold getDN, from_directory. run_io.
  on_dial.
  { intros H. injection H as <- <-. split; [reflexivity|]. left. left. eauto. }
  destruct (StartTLS p); run_io;
    [on_tls;
     [intros H; injection H as <- <-; split; [reflexivity|];
      left; right; left; eauto|] |];
    (on_bind;
     [intros H; injection H as <- <-; split; [reflexivity|];
      left; right; right; left; eauto|]);
    (on_search;
     [|intros H; injection H as <- <-; split; [reflexivity|];
       left; right; right; right; eauto]);
    (destruct (negb (length (Entries s) =? 1)); run_io;
     [intros H; injection H as <- <-; split; [reflexivity|]; right; reflexivity
     |discriminate]).
Qed.

Lemma getGroups_error_source (p : Provider) (userdn : string)
  (history : list Event) (groups : list string) (e : error) :
  value (getGroups dir p userdn history) = (groups, Some e) ->
  groups = [] /\ from_directory dir e.
Proof.
  unfold getGroups, from_directory. run_io.
  on_dial.
  { intros H. injection H as <- <-. split; [reflexivity|]. left. eauto. }
  destruct (StartTLS p); run_io;
    [on_tls;
     [intros H; injection H as <- <-; split; [reflexivity|];
      right; left; eauto|] |];
    (on_bind;
     [intros H; injection H as <- <-; split; [reflexivity|];
      right; right; left; eauto|]);
    (on_search;
     [discriminate
     |intros H; injection H as <- <-; split; [reflexivity|];
      right; right; right; eauto]).
Qed.

(** X4.  On every error path [getDN] returns the empty DN and
    [getGroups] the nil slice: no partial result comes with an error. *)
Theorem steps_return_zero_value_with_error (p : Provider)
  (username userdn : string) (history : list Event) :
  (forall dn e,
     value (getDN dir p username history) = (dn, Some e) -> dn = EmptyString) /\
  (forall groups e,
     value (getGroups dir p userdn history) = (groups, Some e) -> groups = []).
Proof.
  split.
  - intros dn e H. exact (proj1 (getDN_error_source p username history dn e H)).
  - intros groups e H.
    exact (proj1 (getGroups_error_source p userdn history groups e H)).
Qed.









(** Against a directory whose answers do not depend on the history, the
    value of [getDN] and of [getGroups] does not depend on it either. *)
Lemma getDN_value_any (p : Provider) (username : string) (h h' : list Event) :
  history_independent dir ->
  value (getDN dir p username h) = value (getDN dir p username h').
Proof.
  intros Hi. unfold getDN. run_io.
  rewrite (proj1 (Hi h h') (URL p)). on_dial; [reflexivity|].
  destruct (StartTLS p); run_io.
  - rewrite (proj1 (proj2 (Hi (h ++ [EvDialURL (URL p) timeout])
                              (h' ++ [EvDialURL (URL p) timeout])))).
    on_tls; [reflexivity|].
    match goal with
    | |- context [bind dir ?a ?u ?w] =>
        rewrite (proj1 (proj2 (proj2 (Hi a
                   ((h' ++ [EvDialURL (URL p) timeout]) ++ [EvStartTLS true])))) u w)
    end.
    on_bind; [reflexivity|].
    match goal with
    | |- context [search dir ?a ?r] =>
        rewrite (proj2 (proj2 (proj2 (Hi a
                   (((h' ++ [EvDialURL (URL p) timeout]) ++ [EvStartTLS true]) ++
                    [EvBind (BindUsername p) (BindPassword p)])))) r)
    end.
    on_search; [|reflexivity].
    destruct (negb (length (Entries s) =? 1)); reflexivity.
  - match goal with
    | |- context [bind dir ?a ?u ?w] =>
        rewrite (proj1 (proj2 (proj2 (Hi a
                   ((h' ++ [EvDialURL (URL p) timeout]) ++ [])))) u w)
    end.
    on_bind; [reflexivity|].
    match goal with
    | |- context [search dir ?a ?r] =>
        rewrite (proj2 (proj2 (proj2 (Hi a
                   (((h' ++ [EvDialURL (URL p) timeout]) ++ []) ++
                    [EvBind (BindUsername p) (BindPassword p)])))) r)
    end.
    on_search; [|reflexivity].
    destruct (negb (length (Entries s) =? 1)); reflexivity.
Qed.

Lemma getGroups_value_any (p : Provider) (userdn : string) (h h' : list Event) :
  history_independent dir ->
  value (getGroups dir p userdn h) = value (getGroups dir p userdn h').
Proof.
  intros Hi. unfold getGroups. run_io.
  rewrite (proj1 (Hi h h') (URL p)). on_dial; [reflexivity|].
  destruct (StartTLS p); run_io.
  - rewrite (proj1 (proj2 (Hi (h ++ [EvDialURL (URL p) timeout])
                              (h' ++ [EvDialURL (URL p) timeout])))).
    on_tls; [reflexivity|].
    match goal with
    | |- context [bind dir ?a ?u ?w] =>
        rewrite (proj1 (proj2 (proj2 (Hi a
                   ((h' ++ [EvDialURL (URL p) timeout]) ++ [EvStartTLS true])))) u w)
    end.
    on_bind; [reflexivity|].
    match goal with
    | |- context [search dir ?a ?r] =>
        rewrite (proj2 (proj2 (proj2 (Hi a
                   (((h' ++ [EvDialURL (URL p) timeout]) ++ [EvStartTLS true]) ++
                    [EvBind (BindUsername p) (BindPassword p)])))) r)
    end.
    on_search; reflexivity.
  - match goal with
    | |- context [bind dir ?a ?u ?w] =>
        rewrite (proj1 (proj2 (proj2 (Hi a
                   ((h' ++ [EvDialURL (URL p) timeout]) ++ [])))) u w)
    end.
    on_bind; [reflexivity|].
    match goal with
    | |- context [search dir ?a ?r] =>
        rewrite (proj2 (proj2 (proj2 (Hi a
                   (((h' ++ [EvDialURL (URL p) timeout]) ++ []) ++
                    [EvBind (BindUsername p) (BindPassword p)])))) r)
    end.
    on_search; reflexivity.
Qed.

(** X6.  [Refresh] looks at nothing of the presented claims but the user
    identifier: claims that agree on it are refreshed alike, whatever
    their provider identifier, groups or dates.  And against a directory
    whose answers do not change, a refresh of the claims that a
    successful [Authenticate] returned runs the claims builder for the
    same username and the same groups as the login did; the issuer being
    called anew, with its own clock and token identifier, the claims it
    mints need not be the presented ones. *)
Theorem Refresh_mints_for_the_identity_of_the_login (p : Provider)
  (username password : string) (history history' : list Event)
  (NewClaims' : jwt.NewClaimsFn) :
  (forall presented presented',
     UserID (corev2.Provider presented) = UserID (corev2.Provider presented') ->
     Refresh NewClaims dir p (Some presented) history =
     Refresh NewClaims dir p (Some presented') history) /\
  (history_independent dir ->
   forall c,
     authentication.succeeds_with
       (Authenticate NewClaims dir p username password history) c ->
     exists groups,
       claims NewClaims p username groups = Returns (Some c, None) /\
       value (Refresh NewClaims' dir p (Some c) history') =
         claims NewClaims' p username groups).
Proof.
  split.
  - intros presented presented' Hid. unfold Refresh. now rewrite Hid.
  - intros Hi c. unfold authentication.succeeds_with.
    rewrite Authenticate_steps. cbn zeta.
    destruct (value (getDN dir p username history)) as [dn [e|]] eqn:H1;
      [discriminate|].
    destruct (value (validatePassword dir p dn password _)) as [e|];
      [discriminate|].
    destruct (value (getGroups dir p dn _)) as [groups [e|]] eqn:H3;
      [discriminate|].
    cbn [value fst]. intros Hc. exists groups. split; [exact Hc|].
    assert (Hid : UserID (corev2.Provider c) = username)
      by exact (proj1 (proj2 (ldap_claims_issued NewClaims p username groups c Hc))).
    rewrite (Refresh_steps NewClaims' dir p c history'). cbn zeta. rewrite Hid.
    rewrite (getDN_value_any p username history' history Hi), H1.
    match type of H3 with
    | value (getGroups dir p dn ?b) = _ =>
        match goal with
        | |- context [value (getGroups dir p dn ?a)] =>
            rewrite (getGroups_value_any p dn a b Hi)
        end
    end.
    rewrite H3. reflexivity.
Qed.

End DirectoryDiscipline.

(** ** Object metadata of the providers, and the allow-all refresh *)

Section ProviderObjects.

Import corev2 goldap.

Variable NewClaims : jwt.NewClaimsFn.
Variable dir : Directory.

(** X7.  For both providers: [GetObjectMeta] reads back what
    [SetObjectMeta] stored; [SetNamespace] changes the namespace and keeps
    the name; [Validate] never fails, forces the object name to the
    provider type, which is also what [Name] returns, whatever name had
    been stored, keeps the namespace, and changes nothing when run again. *)
Theorem metadata_round_trips_and_Validate :
  (forall (p : ldap.Provider) meta namespace,
     ldap.GetObjectMeta (ldap.SetObjectMeta p meta) = meta /\
     ldap.GetObjectMeta (ldap.SetNamespace p namespace) =
       {| Name := Name (ldap.GetObjectMeta p); Namespace := namespace |} /\
     let validated := fst (ldap.Validate (ldap.SetObjectMeta p meta)) in
     snd (ldap.Validate (ldap.SetObjectMeta p meta)) = None /\
     Name (ldap.GetObjectMeta validated) = ldap.Name validated /\
     Name (ldap.GetObjectMeta validated) = "ldap"%string /\
     Namespace (ldap.GetObjectMeta validated) = Namespace meta /\
     ldap.Validate validated = (validated, None) /\
     ldap.SetObjectMeta validated (ldap.GetObjectMeta p) = p) /\
  (forall (p : allowall.Provider) meta namespace,
     allowall.GetObjectMeta (allowall.SetObjectMeta p meta) = meta /\
     allowall.GetObjectMeta (allowall.SetNamespace p namespace) =
       {| Name := Name (allowall.GetObjectMeta p); Namespace := namespace |} /\
     let validated := fst (allowall.Validate (allowall.SetObjectMeta p meta)) in
     snd (allowall.Validate (allowall.SetObjectMeta p meta)) = None /\
     Name (allowall.GetObjectMeta validated) = allowall.Name validated /\
     Name (allowall.GetObjectMeta validated) = "allowall"%string /\
     Namespace (allowall.GetObjectMeta validated) = Namespace meta /\
     allowall.Validate validated = (validated, None) /\
     allowall.SetObjectMeta validated (allowall.GetObjectMeta p) = p).
Proof.
  split; intros p meta namespace; destruct p; repeat split.
Qed.

(** X8.  Neither provider looks at its object metadata when it
    authenticates or refreshes: after [SetObjectMeta], [SetNamespace] or
    [Validate] the calls run exactly as before, and the provider
    identifier in the claims is the provider type, not the object name. *)
Theorem authentication_ignores_metadata :
  (forall (p : ldap.Provider) meta namespace username password presented history,
     let same q :=
       ldap.Authenticate NewClaims dir q username password history =
       ldap.Authenticate NewClaims dir p username password history /\
       ldap.Refresh NewClaims dir q presented history =
       ldap.Refresh NewClaims dir p presented history in
     same (ldap.SetObjectMeta p meta) /\
     same (ldap.SetNamespace p namespace) /\
     same (fst (ldap.Validate p)) /\
     forall c,
       authentication.succeeds_with
         (ldap.Authenticate NewClaims dir (ldap.SetObjectMeta p meta)
            username password history) c ->
       ProviderID (Provider c) = "ldap"%string) /\
  (forall (p : allowall.Provider) meta namespace username password presented history,
     let same q :=
       allowall.Authenticate NewClaims q username password history =
       allowall.Authenticate NewClaims p username password history /\
       allowall.Refresh NewClaims q presented history =
       allowall.Refresh NewClaims p presented history in
     same (allowall.SetObjectMeta p meta) /\
     same (allowall.SetNamespace p namespace) /\
     same (fst (allowall.Validate p)) /\
     forall c,
       authentication.succeeds_with
         (allowall.Authenticate NewClaims (allowall.SetObjectMeta p meta)
            username password history) c ->
       ProviderID (Provider c) = "allowall"%string).
Proof.
  split; intros p meta namespace username password presented history same;
    subst same; cbn beta.
  - split; [split; reflexivity|]. split; [split; reflexivity|].
    split; [split; reflexivity|].
    intros c H. unfold authentication.succeeds_with in H.
    rewrite Authenticate_steps in H. cbn zeta in H.
    destruct (value (ldap.getDN dir _ username history)) as [dn [e|]];
      [discriminate|].
    destruct (value (ldap.validatePassword dir _ dn password _)) as [e|];
      [discriminate|].
    destruct (value (ldap.getGroups dir _ dn _)) as [groups [e|]];
      [discriminate|].
    exact (proj1 (ldap_claims_issued NewClaims _ username groups c H)).
  - split; [split; reflexivity|]. split; [split; reflexivity|].
    split; [split; reflexivity|].
    intros c H.
    exact (proj1 (allowall_claims_issued NewClaims _ username c H)).
Qed.

(** X9.  The allow-all [Refresh] asks nothing of any directory and is
    [Authenticate] for the user identifier of the presented claims,
    whichever provider issued them and whatever else they hold.  A
    refresh of the claims that a successful [Authenticate] returned for a
    username is a new login of that username: with the issuer called
    anew, it returns what [Authenticate] for that username returns then,
    which need not be the presented claims. *)
Theorem allowall_Refresh_is_Authenticate (p : allowall.Provider)
  (presented : Claims) (username password : string)
  (history history' : list Event) (NewClaims' : jwt.NewClaimsFn) :
  trace (allowall.Refresh NewClaims p (Some presented) history) = [] /\
  allowall.Refresh NewClaims p (Some presented) history =
    allowall.Authenticate NewClaims p (UserID (Provider presented))
      password history' /\
  (forall c,
     authentication.succeeds_with
       (allowall.Authenticate NewClaims p username password history) c ->
     allowall.Refresh NewClaims' p (Some c) history' =
       allowall.Authenticate NewClaims' p username password history').
Proof.
  split; [reflexivity|]. split; [reflexivity|].
  intros c H. unfold authentication.succeeds_with in H.
  unfold allowall.Authenticate, value, ret in H. cbn [fst] in H.
  pose proof (allowall_claims_issued NewClaims p username c H) as (_ & Hid & _).
  unfold allowall.Refresh, allowall.Authenticate. now rewrite Hid.
Qed.

End ProviderObjects.

(** ** Colours of the command line *)

Section Colours.

Import strings globals.

Local Open Scope string_scope.

Variable ColorFunc : string -> string -> string.

Lemma append_empty_r (s : string) : s ++ "" = s.
Proof. induction s as [|c s IH]; simpl; [reflexivity | now rewrite IH]. Qed.

Lemma append_associative (a b c : string) : (a ++ b) ++ c = a ++ b ++ c.
Proof. induction a as [|x a IH]; simpl; [reflexivity | now rewrite IH]. Qed.

Lemma HasPrefix_length (s w : string) :
  HasPrefix s w = true -> String.length w <= String.length s.
Proof.
  revert s. induction w as [|a w IH]; intros s; simpl; [lia|].
  destruct s as [|b s]; [discriminate|]. rewrite andb_true_iff.
  intros [_ H]. apply IH in H. simpl. lia.
Qed.

Lemma HasPrefix_split (s w : string) :
  HasPrefix s w = true -> exists rest, s = w ++ rest.
Proof.
  revert s. induction w as [|a w IH]; intros s; simpl.
  - intros _. now exists s.
  - destruct s as [|b s]; [discriminate|]. rewrite andb_true_iff.
    intros [Hab H]. apply Ascii.eqb_eq in Hab. subst b.
    destruct (IH s H) as [rest ->]. now exists rest.
Qed.

(** The replacer of [BooleanStyle]. *)
Definition boolean_replacer : Replacer :=
  NewReplacer [("false", ColorFunc "red" "false"); ("true", ColorFunc "blue" "true")].

(** A text in which neither word occurs is scanned without change. *)
Lemma scan_without_words (s : string) :
  Contains s "true" = false -> Contains s "false" = false ->
  scan boolean_replacer 0 s = s.
Proof.
  induction s as [|c s IH]; [reflexivity|].
  cbn [Contains]. rewrite !orb_false_iff. intros [Ht Ht'] [Hf Hf'].
  cbn [scan boolean_replacer NewReplacer lookup]. rewrite Hf, Ht.
  now rewrite (IH Ht' Hf').
Qed.


(** Neither word can begin inside a text and end inside a word that
    follows it: what matches at a position of the text is not changed by
    a word put after the text. *)
Lemma lookup_before_word (c : Ascii.ascii) (a b : string) :
  lookup boolean_replacer (String c a ++ "true" ++ b) =
    lookup boolean_replacer (String c a) /\
  lookup boolean_replacer (String c a ++ "false" ++ b) =
    lookup boolean_replacer (String c a).
Proof.
  cbn [boolean_replacer NewReplacer lookup].
  assert (H : forall w, (w = "true" \/ w = "false") ->
              (HasPrefix (String c a ++ w ++ b) "false" =
                 HasPrefix (String c a) "false") /\
              (HasPrefix (String c a ++ w ++ b) "true" =
                 HasPrefix (String c a) "true")).
  { intros w [-> | ->];
      destruct a as [|c2 [|c3 [|c4 [|c5 a]]]]; simpl;
      rewrite ?andb_false_r; split; reflexivity. }
  destruct (H "true" (or_introl eq_refl)) as [-> ->].
  destruct (H "false" (or_intror eq_refl)) as [-> ->].
  split; reflexivity.
Qed.

Lemma lookup_skip (s new : string) (n : nat) :
  lookup boolean_replacer s = Some (new, n) ->
  1 <= n <= String.length s.
Proof.
  cbn [boolean_replacer NewReplacer lookup].
  destruct (HasPrefix s "false") eqn:Hf.
  - intros H. injection H as _ <-. apply HasPrefix_length in Hf. simpl in *. lia.
  - destruct (HasPrefix s "true") eqn:Ht; [|discriminate].
    intros H. injection H as _ <-. apply HasPrefix_length in Ht. simpl in *. lia.
Qed.

(** The scan of a text followed by a word and more text: the text is
    scanned as on its own, the word is replaced, the scan goes on. *)
Lemma scan_word (a b : string) :
  forall skip, skip <= String.length a ->
    scan boolean_replacer skip (a ++ "true" ++ b) =
      scan boolean_replacer skip a ++ ColorFunc "blue" "true" ++
      scan boolean_replacer 0 b /\
    scan boolean_replacer skip (a ++ "false" ++ b) =
      scan boolean_replacer skip a ++ ColorFunc "red" "false" ++
      scan boolean_replacer 0 b.
Proof.
  induction a as [|c a IH]; intros skip Hskip.
  - assert (skip = 0) as -> by (simpl in Hskip; lia).
    split; reflexivity.
  - destruct skip as [|skip].
    + destruct (lookup_before_word c a b) as [Lt Lf].
      cbn [scan append] in *. rewrite Lt, Lf.
      destruct (lookup boolean_replacer (String c a)) as [[new n]|] eqn:L.
      * apply lookup_skip in L. cbn [String.length] in L.
        destruct (IH (Nat.pred n) ltac:(lia)) as [-> ->].
        now rewrite !append_associative.
      * destruct (IH 0 ltac:(lia)) as [-> ->]. split; reflexivity.
    + cbn [scan append]. apply IH. simpl in Hskip. lia.
Qed.

(** X10.  [BooleanStyle] replaces the words wherever they stand: a text,
    then [true] or [false], then more text is styled as the styled text,
    then the styled word, then the styled rest.  A word is never missed
    for what comes before it, and styled text is not styled again. *)
Theorem BooleanStyle_styles_every_word (a b : string) :
  BooleanStyle ColorFunc (a ++ "true" ++ b) =
    BooleanStyle ColorFunc a ++ ColorFunc "blue" "true" ++
    BooleanStyle ColorFunc b /\
  BooleanStyle ColorFunc (a ++ "false" ++ b) =
    BooleanStyle ColorFunc a ++ ColorFunc "red" "false" ++
    BooleanStyle ColorFunc b.
Proof.
  unfold BooleanStyle, Replace. cbn zeta.
  apply (scan_word a b 0). lia.
Qed.

(** X11.  [BooleanStyle] returns unchanged a text in which neither
    [true] nor [false] occurs. *)
Theorem BooleanStyle_keeps_text_without_words (s : string) :
  Contains s "true" = false -> Contains s "false" = false ->
  BooleanStyle ColorFunc s = s.
Proof.
  intros Ht Hf. unfold BooleanStyle, Replace. cbn zeta.
  apply scan_without_words; assumption.
Qed.

(** X12.  [BooleanStyleP] gives the word for the boolean in its style:
    [true] through the blue style, [false] through the red one. *)
Theorem BooleanStyleP_styles_the_word (b : bool) :
  BooleanStyleP ColorFunc b =
    if b then ColorFunc "blue" "true" else ColorFunc "red" "false".
Proof.
  destruct b; unfold BooleanStyleP, BooleanStyle, Replace; cbn;
    apply append_empty_r.
Qed.

(** The scan with styles that leave their word as it is changes nothing. *)
Lemma scan_plain :
  ColorFunc "blue" "true" = "true" -> ColorFunc "red" "false" = "false" ->
  forall n s, String.length s <= n -> scan boolean_replacer 0 s = s.
Proof.
  intros Hblue Hred. induction n as [|n IH]; intros s Hn.
  - destruct s; [reflexivity | simpl in Hn; lia].
  - destruct s as [|c s]; [reflexivity|].
    cbn [scan boolean_replacer NewReplacer lookup].
    destruct (HasPrefix (String c s) "false") eqn:Hf.
    + apply HasPrefix_split in Hf. destruct Hf as [rest Hf].
      simpl in Hf. injection Hf as -> ->. rewrite Hred. simpl.
      rewrite IH; [reflexivity | simpl in Hn; lia].
    + destruct (HasPrefix (String c s) "true") eqn:Ht.
      * apply HasPrefix_split in Ht. destruct Ht as [rest Ht].
        simpl in Ht. injection Ht as -> ->. rewrite Hblue. simpl.
        rewrite IH; [reflexivity | simpl in Hn; lia].
      * rewrite IH; [reflexivity | simpl in Hn; lia].
Qed.

(** X13.  When the two styles leave their word as it is, as they do once
    colours are switched off, [BooleanStyle] returns every text
    unchanged: it adds styling and never drops or moves a byte. *)
Theorem BooleanStyle_plain_is_identity (s : string) :
  ColorFunc "blue" "true" = "true" -> ColorFunc "red" "false" = "false" ->
  BooleanStyle ColorFunc s = s.
Proof.
  intros Hblue Hred. unfold BooleanStyle, Replace. cbn zeta.
  apply (scan_plain Hblue Hred (String.length s)). lia.
Qed.

End Colours.

(** ** Concrete runs of the further properties *)

Section FurtherRuns.

Import corev2 goldap reach provenance scenario.

Local Open Scope string_scope.

(** The calls of [bob]'s login: the password is in the bind as the DN
    that [getDN] resolved for [bob], and in no other call. *)
Lemma Authenticate_sends_password_run :
  Forall (login_call example_provider "bob" "s3cret" (Some bob_dn))
    [EvDialURL "ldap://directory.example.org:389" 2000000000;
     EvStartTLS true;
     EvBind "cn=reader,dc=example,dc=org" "reader-secret";
     EvSearch (ldap.getDN_searchRequest example_provider "bob");
     EvClose;
     EvDialURL "ldap://directory.example.org:389" 2000000000;
     EvStartTLS true;
     EvBind bob_dn "s3cret";
     EvClose;
     EvDialURL "ldap://directory.example.org:389" 2000000000;
     EvStartTLS true;
     EvBind "cn=reader,dc=example,dc=org" "reader-secret";
     EvSearch (ldap.getGroups_searchRequest example_provider bob_dn);
     EvClose].
Proof.
  exact (Authenticate_sends_password_to_resolved_dn_only mint
           (directory "s3cret") example_provider "bob" "s3cret" []).
Defined.


(** The example directory does not change.  [bob] logs in at one time
    and refreshes at a later one: the refresh mints, with the later
    dates, for [bob] and the two groups of the login. *)
Lemma Refresh_mints_for_the_identity_run :
  let c := {| Subject := "bob"; ClaimGroups := ["ops"; "dev"];
              Provider := {| ProviderID := "ldap"; UserID := "bob" |};
              IssuedAt := 1000; ExpiresAt := 1900 |} in
  history_independent (directory "s3cret") /\
  exists groups,
    ldap.claims mint example_provider "bob" groups = Returns (Some c, None) /\
    value (ldap.Refresh mint_later (directory "s3cret") example_provider
             (Some c) [EvClose]) =
      ldap.claims mint_later example_provider "bob" groups.
Proof.
  intros c.
  assert (Hi : history_independent (directory "s3cret"))
    by (intros h h'; repeat split).
  split; [exact Hi|].
  apply (proj2 (Refresh_mints_for_the_identity_of_the_login mint
                  (directory "s3cret") example_provider "bob" "s3cret"
                  [] [EvClose] mint_later) Hi c).
  reflexivity.
Defined.

(** [bob] refreshes, at a later time, the claims of an allow-all login:
    the refresh is the login of [bob] at that later time. *)
Lemma allowall_Refresh_is_Authenticate_run :
  allowall.Refresh mint_later admin
    (Some {| Subject := "bob"; ClaimGroups := ["cluster-admins"];
             Provider := {| ProviderID := "allowall"; UserID := "bob" |};
             IssuedAt := 1000; ExpiresAt := 1900 |})
    [] =
  allowall.Authenticate mint_later admin "bob" "anything" [].
Proof.
  apply (proj2 (proj2 (allowall_Refresh_is_Authenticate mint admin zero_Claims
                         "bob" "anything" [] [] mint_later))).
  reflexivity.
Defined.

(** A text without the words comes back as it is, whatever the styles. *)
Lemma BooleanStyle_keeps_text_run :
  globals.BooleanStyle globals.escape "enabled: yes" = "enabled: yes".
Proof.
  apply (BooleanStyle_keeps_text_without_words globals.escape "enabled: yes");
    reflexivity.
Defined.

(** With colours switched off a text with both words comes back as it is. *)
Lemma BooleanStyle_plain_run :
  globals.BooleanStyle globals.plain "true or false" = "true or false".
Proof.
  apply (BooleanStyle_plain_is_identity globals.plain "true or false");
    reflexivity.
Defined.

(** With colours on, both words of a text are wrapped and the rest is
    kept. *)
Example BooleanStyle_escape_run :
  globals.BooleanStyle globals.escape "silenced: false, published: true" =
  "silenced: <red>false</>, published: <blue>true</>".
Proof. reflexivity. Qed.

End FurtherRuns.

(** ** A login from end to end *)

Section EndToEnd.

Import corev2 goldap ldap reach.

Variable NewClaims : jwt.NewClaimsFn.
Variable dir : Directory.

(** [getGroups] succeeds exactly when its search is reached and succeeds,
    and then returns the group attribute of every entry found. *)
Lemma getGroups_ok_iff (p : Provider) (userdn : string) (history : list Event)
  (groups : list string) :
  value (getGroups dir p userdn history) = (groups, None) <->
  exists sr,
    group_search_returns dir p userdn history sr /\
    groups = map (fun entry => GetAttributeValue entry (GroupAttribute p))
               (Entries sr).
Proof.
  unfold group_search_returns, service_binds, user_bind_answers, connects,
    getGroups.
  run_io. split.
  - on_dial; [discriminate|].
    destruct (StartTLS p) eqn:Hflag; run_io;
      [on_tls; [discriminate|] |];
      (on_bind; [discriminate|]);
      (on_search; [|discriminate]);
      intros H; injection H as <-; exists s;
      rewrite collect_groups_map; repeat split; auto; discriminate.
  - intros (sr & (((Hdial & Htls) & Hbind) & Hsearch) & ->).
    rewrite Hdial. run_io.
    destruct (StartTLS p) eqn:Hflag; run_io;
      [rewrite (Htls eq_refl); run_io|];
      rewrite Hbind; run_io; rewrite Hsearch; run_io;
      now rewrite collect_groups_map.
Qed.

(** X14.  [Authenticate] returns claims with a nil error exactly when
    the user search finds a single entry, the bind as the DN of that
    entry with the given password succeeds, the group search for that DN
    succeeds, and [jwt.NewClaims] succeeds for the identity made of the
    username, the group attribute of every entry of the group search, and
    a false disabled flag; the claims are then those of [jwt.NewClaims],
    attributed to the provider [ldap] and to the username. *)
Theorem Authenticate_succeeds_iff (p : Provider) (username password : string)
  (history : list Event) (c : Claims) :
  authentication.succeeds_with
    (Authenticate NewClaims dir p username password history) c <->
  exists found entry membership minted,
    user_search_returns dir p username history found /\
    Entries found = [entry] /\
    let at_bind := history ++ trace (getDN dir p username history) in
    user_bind_answers dir p (DN entry) password at_bind None /\
    let at_groups :=
      at_bind ++ trace (validatePassword dir p (DN entry) password at_bind) in
    group_search_returns dir p (DN entry) at_groups membership /\
    NewClaims
      {| Username := username;
         Groups := map (fun e => GetAttributeValue e (GroupAttribute p))
                     (Entries membership);
         Disabled := false |} = (Some minted, None) /\
    c = set_Provider minted {| ProviderID := "ldap"; UserID := username |}.
Proof.
  unfold authentication.succeeds_with. rewrite Authenticate_steps. cbn zeta.
  split.
  - destruct (value (getDN dir p username history)) as [dn [e|]] eqn:H1;
      [discriminate|].
    destruct (value (validatePassword dir p dn password _)) as [e|] eqn:H2;
      [discriminate|].
    destruct (value (getGroups dir p dn _)) as [groups [e|]] eqn:H3;
      [discriminate|].
    cbn [value fst]. intros Hc.
    apply getDN_ok_iff in H1. destruct H1 as (found & entry & Hs & He & <-).
    apply validatePassword_ok_iff in H2.
    apply getGroups_ok_iff in H3. destruct H3 as (membership & Hg & ->).
    unfold claims in Hc.
    destruct (NewClaims _) as [[minted|] err] eqn:E; [|discriminate].
    injection Hc as <- ->.
    exists found, entry, membership, minted.
    split; [exact Hs|]. split; [exact He|]. cbn zeta.
    split; [exact H2|]. split; [exact Hg|].
    split; [exact E | reflexivity].
  - intros (found & entry & membership & minted & Hs & He & Hb & Hg & Hm & ->).
    cbn zeta in Hb, Hg.
    assert (H1 : value (getDN dir p username history) = (DN entry, None))
      by (apply getDN_ok_iff; exists found, entry; auto).
    rewrite H1.
    apply validatePassword_ok_iff in Hb. rewrite Hb.
    assert (H3 : value (getGroups dir p (DN entry)
                          ((history ++ trace (getDN dir p username history)) ++
                           trace (validatePassword dir p (DN entry) password
                                    (history ++ trace (getDN dir p username history)))))
                 = (map (fun e => GetAttributeValue e (GroupAttribute p))
                      (Entries membership), None))
      by (apply getGroups_ok_iff; exists membership; auto).
    rewrite H3. cbn [value fst]. unfold claims. now rewrite Hm.
Qed.

End EndToEnd.

Section EndToEndRun.

Import corev2 goldap reach scenario.

Local Open Scope string_scope.

(** [bob] logs in: one entry, the right password, two groups. *)
Lemma Authenticate_succeeds_run :
  authentication.succeeds_with
    (ldap.Authenticate mint (directory "s3cret") example_provider
       "bob" "s3cret" [])
    {| Subject := "bob"; ClaimGroups := ["ops"; "dev"];
       Provider := {| ProviderID := "ldap"; UserID := "bob" |};
       IssuedAt := 1000; ExpiresAt := 1900 |}.
Proof.
  apply (proj2 (Authenticate_succeeds_iff mint (directory "s3cret")
                  example_provider "bob" "s3cret" [] _)).
  exists {| Entries := [person bob_dn] |}, (person bob_dn),
         {| Entries := [group "ops"; group "dev"] |}.
  eexists. cbn zeta.
  split; [repeat split; intros; reflexivity|].
  split; [reflexivity|].
  split; [repeat split; intros; reflexivity|].
  split; [repeat split; intros; reflexivity|].
  split; reflexivity.
Defined.

End EndToEndRun.
